(** * Garcon [gwt]: compact-token verification engine

    Shallow embedding of [gwt/verifier.go] and [gwt/claims.go]:
    the verifier factory ([NewVerifier], [NewHMAC], [NewHS256] ...), the
    codec ([SplitThreeParts], [B64Decode]), the HMAC signature engine
    ([sign], [verify]) and the claims pipeline ([claims],
    [AccessClaimsFromBase64]).

    Go byte slices are views [(ptr, off, len)] on buffers of a store, so that
    the in-place decode of [B64Decode] with [reuse = true] really overwrites
    the buffer it reads.  Go strings are [string]; byte values are
    [Byte.byte]. *)

From Stdlib Require Import ZArith NArith Lia Bool.
From Stdlib Require Import Strings.Ascii Strings.String Strings.Byte.
From stdpp Require Import base list strings.

Local Open Scope nat_scope.

(** ** Bytes *)

Abbreviation bytes := (list byte).

Definition byte_of_N (n : N) : byte :=
  match Byte.of_N n with
  | Some b => b
  | None => x00
  end.

#[global] Instance byte_eq_dec : EqDecision byte := Byte.byte_eq_dec.

(** [bytes.Equal]: same length and same bytes. *)
Fixpoint bytes_Equal (a b : bytes) : bool :=
  match a, b with
  | [], [] => true
  | x :: a', y :: b' => Byte.eqb x y && bytes_Equal a' b'
  | _, _ => false
  end.

(** [bytes.IndexByte]: index of the first [c], or -1. *)
Fixpoint IndexByte_from (i : Z) (b : bytes) (c : byte) : Z :=
  match b with
  | [] => -1
  | x :: b' => if Byte.eqb x c then i else IndexByte_from (i + 1) b' c
  end.

Definition IndexByte (b : bytes) (c : byte) : Z := IndexByte_from 0 b c.

(** [bytes.LastIndexByte]: index of the last [c], or -1. *)
Fixpoint LastIndexByte_from (i : Z) (b : bytes) (c : byte) : Z :=
  match b with
  | [] => -1
  | x :: b' =>
      let r := LastIndexByte_from (i + 1) b' c in
      if (0 <=? r)%Z then r else if Byte.eqb x c then i else -1
  end.

Definition LastIndexByte (b : bytes) (c : byte) : Z := LastIndexByte_from 0 b c.

(** Number of occurrences of [c] (used to state the three-parts claim). *)
Definition count_byte (c : byte) (b : bytes) : nat :=
  length (filter (fun x => x = c) b).

(** ** Base64, URL-safe alphabet, no padding ([RawURLEncoding]) *)

Module B64.

Definition EncodedLen (n : nat) : nat := (n * 8 + 5) / 6.
Definition DecodedLen (n : nat) : nat := n * 6 / 8.

(** Alphabet [A-Z a-z 0-9 - _]. *)
Definition enc6 (n : N) : byte :=
  if (n <? 26)%N then byte_of_N (65 + n)
  else if (n <? 52)%N then byte_of_N (71 + n)
  else if (n <? 62)%N then byte_of_N (n - 4)
  else if (n =? 62)%N then byte_of_N 45
  else byte_of_N 95.

Definition sextet (c : byte) : option N :=
  let n := Byte.to_N c in
  if (65 <=? n)%N && (n <=? 90)%N then Some (n - 65)%N
  else if (97 <=? n)%N && (n <=? 122)%N then Some (n - 71)%N
  else if (48 <=? n)%N && (n <=? 57)%N then Some (n + 4)%N
  else if (n =? 45)%N then Some 62%N
  else if (n =? 95)%N then Some 63%N
  else None.

Definition sel (w : N) (sh : N) : N := N.land (N.shiftr w sh) 63.
Definition oct (w : N) (sh : N) : byte := byte_of_N (N.land (N.shiftr w sh) 255).

Definition word3 (a b c : byte) : N :=
  N.lor (N.shiftl (Byte.to_N a) 16)
        (N.lor (N.shiftl (Byte.to_N b) 8) (Byte.to_N c)).

(** [Encode]: three input bytes give four characters; a tail of one or two
    bytes gives two or three characters. *)
Fixpoint Encode (src : bytes) : bytes :=
  match src with
  | [] => []
  | [a] =>
      let w := word3 a x00 x00 in [enc6 (sel w 18); enc6 (sel w 12)]
  | [a; b] =>
      let w := word3 a b x00 in
      [enc6 (sel w 18); enc6 (sel w 12); enc6 (sel w 6)]
  | a :: b :: c :: rest =>
      let w := word3 a b c in
      enc6 (sel w 18) :: enc6 (sel w 12) :: enc6 (sel w 6) :: enc6 (sel w 0)
      :: Encode rest
  end.

Definition word4 (a b c d : N) : N :=
  N.lor (N.shiftl a 18) (N.lor (N.shiftl b 12) (N.lor (N.shiftl c 6) d)).

(** One full quantum: four characters give three bytes. *)
Definition dec4 (a b c d : byte) : option (byte * byte * byte) :=
  match sextet a, sextet b, sextet c, sextet d with
  | Some sa, Some sb, Some sc, Some sd =>
      let w := word4 sa sb sc sd in Some (oct w 16, oct w 8, oct w 0)
  | _, _, _, _ => None
  end.

(** Tail of three characters: two bytes. *)
Definition dec3 (a b c : byte) : option (byte * byte) :=
  match sextet a, sextet b, sextet c with
  | Some sa, Some sb, Some sc =>
      let w := word4 sa sb sc 0 in Some (oct w 16, oct w 8)
  | _, _, _ => None
  end.

(** Tail of two characters: one byte. *)
Definition dec2 (a b : byte) : option byte :=
  match sextet a, sextet b with
  | Some sa, Some sb => Some (oct (word4 sa sb 0 0) 16)
  | _, _ => None
  end.

(** [DecodeString]: the decoded value of a whole input, [None] on a
    character outside the alphabet or a dangling single character. *)
Fixpoint DecodeString (src : bytes) : option bytes :=
  match src with
  | [] => Some []
  | [_] => None
  | [a; b] => x ← dec2 a b; Some [x]
  | [a; b; c] => '(x, y) ← dec3 a b c; Some [x; y]
  | a :: b :: c :: d :: rest =>
      '(x, y, z) ← dec4 a b c d;
      r ← DecodeString rest;
      Some (x :: y :: z :: r)
  end.

End B64.

(** ** Hexadecimal ([encoding/hex]) *)

Module Hex.

Definition nibble (c : byte) : option N :=
  let n := Byte.to_N c in
  if (48 <=? n)%N && (n <=? 57)%N then Some (n - 48)%N
  else if (97 <=? n)%N && (n <=? 102)%N then Some (n - 87)%N
  else if (65 <=? n)%N && (n <=? 70)%N then Some (n - 55)%N
  else None.

(** [hex.DecodeString]: an odd length or a non-hex character is an error. *)
Fixpoint DecodeString (src : bytes) : option bytes :=
  match src with
  | [] => Some []
  | [_] => None
  | a :: b :: rest =>
      hi ← nibble a;
      lo ← nibble b;
      r ← DecodeString rest;
      Some (byte_of_N (hi * 16 + lo) :: r)
  end.

End Hex.

Definition bs (s : string) : bytes := String.list_byte_of_string s.


(** ** Strings ([strings] package) *)

Definition colon : ascii := ":"%char.

(** [strings.ContainsRune(s, c)] for an ASCII rune [c]. *)
Fixpoint ContainsRune (s : string) (c : ascii) : bool :=
  match s with
  | EmptyString => false
  | String x s' => Ascii.eqb x c || ContainsRune s' c
  end.

(** [strings.Index] followed by the two cuts [s[:m]] and [s[m+1:]], for a
    separator of one byte. *)
Fixpoint cut (s : string) (sep : ascii) : option (string * string) :=
  match s with
  | EmptyString => None
  | String x s' =>
      if Ascii.eqb x sep then Some (EmptyString, s')
      else match cut s' sep with
           | Some (a, b) => Some (String x a, b)
           | None => None
           end
  end.

(** The loop of [genSplit]: at most [n] cuts, then the rest. *)
Fixpoint genSplit_loop (n : nat) (s : string) (sep : ascii) : list string :=
  match n with
  | 0 => [s]
  | S n' =>
      match cut s sep with
      | None => [s]
      | Some (a, rest) => a :: genSplit_loop n' rest sep
      end
  end.

(** [strings.SplitN(s, sep, n)] for a one-byte separator and [n >= 0]:
    [nil] when [n = 0]; otherwise [n] is capped by [len(s)+1] and the loop
    runs [n-1] times. *)
Definition SplitN (s : string) (sep : ascii) (n : nat) : list string :=
  match n with
  | 0 => []
  | S _ => genSplit_loop (Nat.min n (String.length s + 1) - 1) s sep
  end.

Definition isASCII (s : string) : bool :=
  forallb (fun c => (Ascii.N_of_ascii c <? 128)%N) (list_ascii_of_string s).

Definition upper_ascii (c : ascii) : ascii :=
  let n := Ascii.N_of_ascii c in
  if (97 <=? n)%N && (n <=? 122)%N then Ascii.ascii_of_N (n - 32) else c.

Fixpoint map_string (f : ascii -> ascii) (s : string) : string :=
  match s with
  | EmptyString => EmptyString
  | String c s' => String (f c) (map_string f s')
  end.

(** ** Errors *)

Inductive error : Type :=
  | ErrColumnInKey
  | ErrHMACKey
  | ErrECDSAPubKey
  | ErrThreeParts
  | ErrJWTSignature
  | ErrNoBase64JWT
  | ErrWrongData                                  (* base64 decoder *)
  | ErrKeyEncoding (keyTxt : string) (outSize : nat)   (* DecodeHexOrB64 *)
  | ErrX509 (msg : string)                        (* x509.ParsePKIXPublicKey *)
  | ParamError (msg : string)                     (* log.ParamError(msg).Err() *)
  | ParamErrorf (format : string) (args : list string)
  | ClaimError (err : string) (claimsBytes : bytes)  (* claimError{err, claimsBytes} *)
  | ValidationError (Errors : Z).                 (* jwt.ValidationError *)

(** A call either panics or returns. *)
Inductive outcome (A : Type) : Type :=
  | Panics (msg : string)
  | Returns (a : A).
Arguments Panics {A} msg.
Arguments Returns {A} a.

(** ** Claims *)

(** [jwt.RegisteredClaims] (golang-jwt/jwt v4): the three dates are
    [*NumericDate], here an optional instant: an integer on the time line
    of the clock, 0 being the Unix epoch. *)
Record RegisteredClaims : Type := {
  Issuer : string;
  Subject : string;
  Audience : list string;
  ExpiresAt : option Z;
  NotBefore : option Z;
  IssuedAt : option Z;
  ID : string
}.

Record AccessClaims : Type := {
  Registered : RegisteredClaims;
  Username : string;
  Groups : list string;
  Orgs : list string
}.

(** ** Keys and verifiers *)

Inductive HashAlg : Type := SHA256 | SHA384 | SHA512.

Record ecdsa_PublicKey : Type := { Curve : string; X : Z; Y : Z }.

(** What [x509.ParsePKIXPublicKey] may return. *)
Inductive PublicKey : Type :=
  | PubECDSA (k : ecdsa_PublicKey)
  | PubEd25519 (k : bytes)
  | PubOther.

Record Base : Type := { reuse : bool }.
Record BytesKey : Type := { key : bytes; bk_base : Base }.
Record ECDSA : Type := { ec_key : ecdsa_PublicKey; ec_base : Base }.

Record HS256 : Type := { hs256 : BytesKey }.
Record HS384 : Type := { hs384 : BytesKey }.
Record HS512 : Type := { hs512 : BytesKey }.
Record EdDSA : Type := { eddsa : BytesKey }.
Record ES256 : Type := { es256 : ECDSA }.
Record ES384 : Type := { es384 : ECDSA }.
Record ES512 : Type := { es512 : ECDSA }.

(** The dynamic types behind the [Tokenizer] interface. *)
Inductive Tokenizer : Type :=
  | TokHS256 (v : HS256)
  | TokHS384 (v : HS384)
  | TokHS512 (v : HS512).

(** The dynamic types behind the [Verifier] interface. *)
Inductive Verifier : Type :=
  | VerTok (t : Tokenizer)
  | VerES256 (v : ES256)
  | VerES384 (v : ES384)
  | VerES512 (v : ES512)
  | VerEdDSA (v : EdDSA).

(** A Go interface value: the nil interface, an interface that holds a nil
    pointer of some dynamic type (what converting a nil [*HS256] gives), or
    an interface that holds a value. *)
Inductive iface (A : Type) : Type :=
  | Nil
  | NilPtr (dyn : string)
  | Val (v : A).
Arguments Nil {A}.
Arguments NilPtr {A} dyn.
Arguments Val {A} v.

(** Conversion of a pointer result [*T] to an interface. *)
Definition to_iface {A T : Type} (dyn : string) (inj : T -> A) (p : option T) : iface A :=
  match p with
  | Some v => Val (inj v)
  | None => NilPtr dyn
  end.

(** Conversion of a [Tokenizer] interface value to a [Verifier]. *)
Definition tok_to_ver (t : iface Tokenizer) : iface Verifier :=
  match t with
  | Nil => Nil
  | NilPtr d => NilPtr d
  | Val v => Val (VerTok v)
  end.

Definition Base_Reuse (b : Base) : bool := reuse b.

Definition Tokenizer_key (t : Tokenizer) : BytesKey :=
  match t with
  | TokHS256 v => hs256 v
  | TokHS384 v => hs384 v
  | TokHS512 v => hs512 v
  end.

(** Method [Reuse], promoted from the embedded [Base]. *)
Definition Reuse (v : Verifier) : bool :=
  match v with
  | VerTok t => Base_Reuse (bk_base (Tokenizer_key t))
  | VerES256 v => Base_Reuse (ec_base (es256 v))
  | VerES384 v => Base_Reuse (ec_base (es384 v))
  | VerES512 v => Base_Reuse (ec_base (es512 v))
  | VerEdDSA v => Base_Reuse (bk_base (eddsa v))
  end.

(** ** The store: buffers and slices *)

Record slice : Type := Slice { ptr : nat; off : nat; len : nat }.

Abbreviation store := (list bytes).

#[global] Instance slice_eq_dec : EqDecision slice.
Proof. solve_decision. Defined.

(** The nil slice. *)
Definition nil_slice : slice := Slice 0 0 0.

(** [s[lo:hi]] *)
Definition reslice (s : slice) (lo hi : nat) : slice :=
  Slice (ptr s) (off s + lo) (hi - lo).

(** The bytes a slice shows. *)
Definition load (m : store) (s : slice) : bytes :=
  match m !! ptr s with
  | Some buf => take (len s) (drop (off s) buf)
  | None => []
  end.

(** [s[i]], [None] out of range. *)
Definition rd (m : store) (s : slice) (i : nat) : option byte :=
  if i <? len s then
    match m !! ptr s with
    | Some buf => buf !! (off s + i)
    | None => None
    end
  else None.

(** [s[i] = b] *)
Definition wr (m : store) (s : slice) (i : nat) (b : byte) : store :=
  alter (fun buf => <[off s + i := b]> buf) (ptr s) m.

(** [make([]byte, n)]: a new zeroed buffer. *)
Definition make (m : store) (n : nat) : store * slice :=
  (m ++ [replicate n x00], Slice (length m) 0 n).

(** A slice lies inside a buffer of the store. *)
Definition slice_ok (m : store) (s : slice) : Prop :=
  exists buf, m !! ptr s = Some buf /\ off s + len s <= length buf.

(** ** State: the store, the clock and a ghost trace of the calls made *)

Inductive event : Type :=
  | EvVerify (headerPayload signature : slice)   (* Verifier.Verify entered *)
  | EvB64Decode (b64 : slice) (reuse : bool)     (* B64Decode entered *)
  | EvUnmarshal (data : bytes)                   (* json.Unmarshal entered *)
  | EvNow.                                       (* the clock was read *)

Record state : Type := State { mem : store; clock : Z; trace : list event }.

Definition M (A : Type) : Type := state -> A * state.

Definition ret {A : Type} (a : A) : M A := fun st => (a, st).

Definition bind {A B : Type} (c : M A) (k : A -> M B) : M B :=
  fun st => let (a, st') := c st in k a st'.

Notation "'let*' x ':=' c 'in' k" := (bind c (fun x => k))
  (at level 10, x pattern, c at level 100, k at level 200).

Definition emit (e : event) : M unit :=
  fun st => (tt, State (mem st) (clock st) (trace st ++ [e])).

Definition loadM (s : slice) : M bytes := fun st => (load (mem st) s, st).

Definition with_mem {A : Type} (f : store -> store * A) : M A :=
  fun st => let (m', a) := f (mem st) in (a, State m' (clock st) (trace st)).

(** [time.Now()] *)
Definition now : M Z :=
  let* _ := emit EvNow in fun st => (clock st, st).

(** Ghost predicate on the trace: the event is a base64 decode of the slice
    [payload] or a JSON decode. *)
Definition decodes_payload (payload : slice) (e : event) : bool :=
  match e with
  | EvB64Decode s _ => bool_decide (s = payload)
  | EvUnmarshal _ => true
  | _ => false
  end.

(** ** Codec on the store *)

(** [RawURLEncoding.Decode(dst, src)] belongs to the base64 library the
    package imports as [turbo64]; [B64Decode] calls it with [dst] and [src]
    the same slice when [reuse] is set.  It is modelled as the sequential
    decoder: quantum [k] reads [src[4k..4k+3]] and then writes
    [dst[3k..3k+2]], in the store, so that a write is seen by every later
    read of the same place.

    The full quanta, [q] of them left; the result is the store and whether
    all of them decoded. *)
Fixpoint decQuanta (q k : nat) (m : store) (dst src : slice) : store * bool :=
  match q with
  | 0 => (m, true)
  | S q' =>
      match rd m src (4 * k), rd m src (4 * k + 1),
            rd m src (4 * k + 2), rd m src (4 * k + 3) with
      | Some a, Some b, Some c, Some d =>
          match B64.dec4 a b c d with
          | Some (x, y, z) =>
              let m1 := wr m dst (3 * k) x in
              let m2 := wr m1 dst (3 * k + 1) y in
              let m3 := wr m2 dst (3 * k + 2) z in
              decQuanta q' (S k) m3 dst src
          | None => (m, false)
          end
      | _, _, _, _ => (m, false)
      end
  end.

(** The tail after [k] full quanta: nothing, or two or three characters; a
    single character is an error.  The result is the store and the number
    of bytes written in all, [None] on error. *)
Definition decTail (k : nat) (m : store) (dst src : slice) : store * option nat :=
  match len src - 4 * k with
  | 0 => (m, Some (3 * k))
  | 1 => (m, None)
  | 2 =>
      match rd m src (4 * k), rd m src (4 * k + 1) with
      | Some a, Some b =>
          match B64.dec2 a b with
          | Some x => (wr m dst (3 * k) x, Some (3 * k + 1))
          | None => (m, None)
          end
      | _, _ => (m, None)
      end
  | _ =>
      match rd m src (4 * k), rd m src (4 * k + 1), rd m src (4 * k + 2) with
      | Some a, Some b, Some c =>
          match B64.dec3 a b c with
          | Some (x, y) =>
              (wr (wr m dst (3 * k) x) dst (3 * k + 1) y, Some (3 * k + 2))
          | None => (m, None)
          end
      | _, _, _ => (m, None)
      end
  end.

(** [RawURLEncoding.Decode(dst, src) (n, err)] *)
Definition Decode (m : store) (dst src : slice) : store * (nat * option error) :=
  let q := len src / 4 in
  let (m1, ok) := decQuanta q 0 m dst src in
  if ok then
    match decTail q m1 dst src with
    | (m2, Some n) => (m2, (n, None))
    | (m2, None) => (m2, (0, Some ErrWrongData))
    end
  else (m1, (0, Some ErrWrongData)).

(** The value of the first [q] full quanta of a text, and of a tail: what
    [Decode] is to leave in [dst]. *)
Fixpoint quanta_value (q : nat) (l : bytes) : option bytes :=
  match q with
  | 0 => Some []
  | S q' =>
      match l with
      | a :: b :: c :: d :: rest =>
          '(x, y, z) ← B64.dec4 a b c d;
          r ← quanta_value q' rest;
          Some (x :: y :: z :: r)
      | _ => None
      end
  end.

Definition tail_value (l : bytes) : option bytes :=
  match l with
  | [] => Some []
  | [a; b] => x ← B64.dec2 a b; Some [x]
  | [a; b; c] => '(x, y) ← B64.dec3 a b c; Some [x; y]
  | _ => None
  end.

(** [Decode(dst, src)] never writes ahead of what it has read when [dst] is
    in another buffer than [src], or starts no later than [src]. *)
Definition no_clobber (dst src : slice) : Prop :=
  ptr dst <> ptr src \/ off dst <= off src.

(** [B64Decode(b64, reuse)]: with [reuse] the output slice is the input
    slice itself. *)
Definition B64Decode (b64 : slice) (reuse : bool) : M (slice * option error) :=
  let* _ := emit (EvB64Decode b64 reuse) in
  with_mem (fun m =>
    let (m0, out) :=
      if negb reuse then make m (B64.DecodedLen (len b64)) else (m, b64) in
    let '(m1, (n, err)) := Decode m0 out b64 in
    match err with
    | Some _ => (m1, (nil_slice, err))
    | None => (m1, (reslice out 0 n, None))
    end).

(** [SplitThreeParts(jwt) (p1, p2, err)] *)
Definition SplitThreeParts (jwt : bytes) : Z * Z * option error :=
  let p1 := IndexByte jwt "."%byte in
  let p2 := LastIndexByte jwt "."%byte in
  if (p1 <? 0)%Z || (p1 >=? p2)%Z then (0%Z, 0%Z, Some ErrThreeParts)
  else (p1, p2, None).

(** ** What the engine takes from outside this package *)

(** The cryptographic primitives and decoders of the Go standard library,
    the Unicode branch of [strings.ToUpper], and the message constant
    [notSupportedNotice], which [verifier.go] uses and does not declare. *)
Class Primitives : Type := {
  (* hmac.New(h, key), Write(msg), Sum(nil) *)
  hmac_Sum : HashAlg -> bytes -> bytes -> bytes;
  (* crypto.SHAxxx.New(), Write(msg), Sum(nil) *)
  hash_Sum : HashAlg -> bytes -> bytes;
  ecdsa_Verify : ecdsa_PublicKey -> bytes -> Z -> Z -> bool;
  ed25519_Verify : bytes -> bytes -> bytes -> bool;
  x509_ParsePKIXPublicKey : bytes -> option PublicKey * option error;
  (* json.Unmarshal(data, &claims): the claims or the error text *)
  json_Unmarshal : bytes -> AccessClaims + string;
  (* strings.Map(unicode.ToUpper, s), taken by ToUpper on non-ASCII input *)
  unicode_ToUpper : string -> string;
  notSupportedNotice : string
}.

(** Modelled from the spec: [gg.DecodeHexOrB64(in, outSize)], called by
    every constructor of [verifier.go]; its definition in package [gg] is
    missing.  The spec (4.1): the input text may be
    hex or base64; detection uses decoded-length matching against the
    expected byte count: try hex first, fall back to base64, fail if neither
    yields the exact expected length.  Base64 is the URL-safe unpadded
    alphabet the package uses everywhere. *)
Definition DecodeHexOrB64 (in_ : string) (outSize : nat) : bytes * option error :=
  let fallback :=
    match B64.DecodeString (bs in_) with
    | Some b =>
        if length b =? outSize then (b, None)
        else ([], Some (ErrKeyEncoding in_ outSize))
    | None => ([], Some (ErrKeyEncoding in_ outSize))
    end in
  match Hex.DecodeString (bs in_) with
  | Some b => if length b =? outSize then (b, None) else fallback
  | None => fallback
  end.

(** The key text has a hex or a base64 decoding of exactly [n] bytes. *)
Definition has_decoding (txt : string) (n : nat) : bool :=
  match Hex.DecodeString (bs txt) with
  | Some h => length h =? n
  | None => false
  end
  || match B64.DecodeString (bs txt) with
     | Some b => length b =? n
     | None => false
     end.

(** The bytes a key text stands for when [n] bytes are expected: the hex
    decoding if it has [n] bytes, otherwise the base64 decoding if it has. *)
Definition decoding (txt : string) (n : nat) : option bytes :=
  match Hex.DecodeString (bs txt) with
  | Some h =>
      if length h =? n then Some h
      else match B64.DecodeString (bs txt) with
           | Some b => if length b =? n then Some b else None
           | None => None
           end
  | None =>
      match B64.DecodeString (bs txt) with
      | Some b => if length b =? n then Some b else None
      | None => None
      end
  end.

(** Transcribed from golang-jwt/jwt v4.5.2 (the version [go.mod] pins),
    [claims.go]: the bits of [ValidationError.Errors]. *)
Definition ValidationErrorExpired : Z := Z.shiftl 1 4.
Definition ValidationErrorIssuedAt : Z := Z.shiftl 1 5.
Definition ValidationErrorNotValidYet : Z := Z.shiftl 1 7.

(** [verifyExp(exp, now, required)]: [now.Before(exp)], and a missing [exp]
    passes unless required. *)
Definition verifyExp (exp : option Z) (now_ : Z) (required : bool) : bool :=
  match exp with
  | None => negb required
  | Some e => (now_ <? e)%Z
  end.

(** [verifyIat]: [now.After(iat) || now.Equal(iat)]. *)
Definition verifyIat (iat : option Z) (now_ : Z) (required : bool) : bool :=
  match iat with
  | None => negb required
  | Some t => (t <? now_)%Z || (now_ =? t)%Z
  end.

(** [verifyNbf]: [now.After(nbf) || now.Equal(nbf)]. *)
Definition verifyNbf (nbf : option Z) (now_ : Z) (required : bool) : bool :=
  match nbf with
  | None => negb required
  | Some t => (t <? now_)%Z || (now_ =? t)%Z
  end.

(** The body of [RegisteredClaims.Valid] once the clock is read: each failed
    check sets its bit; the claims are valid when no bit is set.  None of
    the three dates is required. *)
Definition validation_errors (c : RegisteredClaims) (now_ : Z) : Z :=
  let e0 := 0%Z in
  let e1 :=
    if negb (verifyExp (ExpiresAt c) now_ false)
    then Z.lor e0 ValidationErrorExpired else e0 in
  let e2 :=
    if negb (verifyIat (IssuedAt c) now_ false)
    then Z.lor e1 ValidationErrorIssuedAt else e1 in
  let e3 :=
    if negb (verifyNbf (NotBefore c) now_ false)
    then Z.lor e2 ValidationErrorNotValidYet else e2 in
  e3.

Definition Valid_at (c : RegisteredClaims) (now_ : Z) : option error :=
  let e := validation_errors c now_ in
  if (e =? 0)%Z then None else Some (ValidationError e).

(** [claims.Valid()]: [AccessClaims] declares no method of its own, so this
    is the method promoted from the embedded [jwt.RegisteredClaims]; it
    reads the clock once. *)
Definition Valid (c : AccessClaims) : M (option error) :=
  let* t := now in ret (Valid_at (Registered c) t).

(** [big.NewInt(0).SetBytes(b)]: big-endian unsigned integer. *)
Definition SetBytes (b : bytes) : Z :=
  fold_left (fun acc x => (acc * 256 + Z.of_N (Byte.to_N x))%Z) b 0%Z.

(** [hash.Hash]: the algorithm, the HMAC key if any, and what was written. *)
Record Hash : Type := { h_alg : HashAlg; h_key : option bytes; h_buf : bytes }.

Definition hmac_New (a : HashAlg) (k : bytes) : Hash :=
  {| h_alg := a; h_key := Some k; h_buf := [] |}.

Definition crypto_New (a : HashAlg) : Hash :=
  {| h_alg := a; h_key := None; h_buf := [] |}.

Definition Hash_Write (d : Hash) (p : bytes) : Hash :=
  {| h_alg := h_alg d; h_key := h_key d; h_buf := h_buf d ++ p |}.

(** Copy [src] into the buffer [dst] from its start. *)
Definition fill (dst src : bytes) : bytes :=
  take (length dst) src ++ drop (length src) dst.

(** The algorithm names [NewVerifier] refuses as not supported, and the
    ones it builds a verifier for. *)
Definition unsupported_names : list string :=
  ["RS256"; "RS384"; "RS512"; "PS256"; "PS384"; "PS512"]%string.

Definition supported_names : list string :=
  [EmptyString; "HMAC"; "HS256"; "HS384"; "HS512"; "ES256"; "ES384"; "ES512"; "EDDSA"]%string.

Section Engine.

Context {P : Primitives}.

Definition Hash_Sum (d : Hash) (b : bytes) : bytes :=
  b ++ match h_key d with
       | Some k => hmac_Sum (h_alg d) k (h_buf d)
       | None => hash_Sum (h_alg d) (h_buf d)
       end.

(** [strings.ToUpper] *)
Definition ToUpper (s : string) : string :=
  if isASCII s then map_string upper_ascii s else unicode_ToUpper s.

(** [sign(digest, headerPayload)] *)
Definition sign (digest : Hash) (headerPayload : bytes) : bytes :=
  let digest := Hash_Write digest headerPayload in
  let sigBin := Hash_Sum digest [] in
  let b64Len := B64.EncodedLen (length sigBin) in
  let sigB64 := replicate b64Len x00 in
  fill sigB64 (B64.Encode sigBin).

Definition HS256_Sign (v : HS256) (hp : bytes) : bytes :=
  sign (hmac_New SHA256 (key (hs256 v))) hp.
Definition HS384_Sign (v : HS384) (hp : bytes) : bytes :=
  sign (hmac_New SHA384 (key (hs384 v))) hp.
Definition HS512_Sign (v : HS512) (hp : bytes) : bytes :=
  sign (hmac_New SHA512 (key (hs512 v))) hp.

(** Method [Sign] of the [Tokenizer] interface. *)
Definition Sign (t : Tokenizer) (hp : bytes) : bytes :=
  match t with
  | TokHS256 v => HS256_Sign v hp
  | TokHS384 v => HS384_Sign v hp
  | TokHS512 v => HS512_Sign v hp
  end.

(** [verify(v, headerPayload, jwtSignature)] *)
Definition verify (v : Tokenizer) (headerPayload jwtSignature : bytes) : bool :=
  let ourSignature := Sign v headerPayload in
  bytes_Equal ourSignature jwtSignature.

(** Method [verify(digest, headerPayload, sig)] of [ECDSA] *)
Definition ECDSA_verify (v : ECDSA) (digest : Hash) (headerPayload sig : slice) : M bool :=
  let* (sig, err) := B64Decode sig (Base_Reuse (ec_base v)) in
  match err with
  | Some _ => ret false
  | None =>
      let* hp := loadM headerPayload in
      let digest := Hash_Write digest hp in
      let* s := loadM sig in
      let r_ := SetBytes (take (length s / 2) s) in
      let s_ := SetBytes (drop (length s / 2) s) in
      ret (ecdsa_Verify (ec_key v) (Hash_Sum digest []) r_ s_)
  end.

(** Method [verify(headerPayload, sig)] of [EdDSA] *)
Definition EdDSA_verify (v : EdDSA) (headerPayload sig : slice) : M bool :=
  let* (sig, err) := B64Decode sig (Base_Reuse (bk_base (eddsa v))) in
  match err with
  | Some _ => ret false
  | None =>
      let* hp := loadM headerPayload in
      let* s := loadM sig in
      ret (ed25519_Verify (key (eddsa v)) hp s)
  end.

(** Method [Verify] of the [Verifier] interface. *)
Definition Verify (v : Verifier) (hp sig : slice) : M bool :=
  let* _ := emit (EvVerify hp sig) in
  match v with
  | VerTok t =>
      let* hpB := loadM hp in
      let* sigB := loadM sig in
      ret (verify t hpB sigB)
  | VerES256 v => ECDSA_verify (es256 v) (crypto_New SHA256) hp sig
  | VerES384 v => ECDSA_verify (es384 v) (crypto_New SHA384) hp sig
  | VerES512 v => ECDSA_verify (es512 v) (crypto_New SHA512) hp sig
  | VerEdDSA v => EdDSA_verify v hp sig
  end.

(** *** The factory *)

Definition NewHS256 (keyTxt : string) (reuse : bool) : option HS256 * option error :=
  let (key, err) := DecodeHexOrB64 keyTxt 32 in
  match err with
  | Some e => (None, Some e)
  | None => (Some {| hs256 := {| key := key; bk_base := {| reuse := reuse |} |} |}, None)
  end.

Definition NewHS384 (keyTxt : string) (reuse : bool) : option HS384 * option error :=
  let (key, err) := DecodeHexOrB64 keyTxt 48 in
  match err with
  | Some e => (None, Some e)
  | None => (Some {| hs384 := {| key := key; bk_base := {| reuse := reuse |} |} |}, None)
  end.

Definition NewHS512 (keyTxt : string) (reuse : bool) : option HS512 * option error :=
  let (key, err) := DecodeHexOrB64 keyTxt 64 in
  match err with
  | Some e => (None, Some e)
  | None => (Some {| hs512 := {| key := key; bk_base := {| reuse := reuse |} |} |}, None)
  end.

Definition NewEdDSA (keyTxt : string) (reuse : bool) : option EdDSA * option error :=
  let (der, err) := DecodeHexOrB64 keyTxt 44 in
  match err with
  | Some e => (None, Some e)
  | None =>
      let (pub, err) := x509_ParsePKIXPublicKey der in
      match err with
      | Some e => (None, Some e)
      | None =>
          match pub with
          | Some (PubEd25519 edPubKey) =>
              (Some {| eddsa := {| key := edPubKey; bk_base := {| reuse := reuse |} |} |}, None)
          | _ => (None, Some ErrECDSAPubKey)
          end
      end
  end.

Definition NewES256 (keyTxt : string) (reuse : bool) : option ES256 * option error :=
  let (key, err) := DecodeHexOrB64 keyTxt 91 in
  match err with
  | Some e => (None, Some e)
  | None =>
      let (pub, err) := x509_ParsePKIXPublicKey key in
      match err with
      | Some e => (None, Some e)
      | None =>
          match pub with
          | Some (PubECDSA ecPubKey) =>
              (Some {| es256 := {| ec_key := ecPubKey; ec_base := {| reuse := reuse |} |} |}, None)
          | _ => (None, Some ErrECDSAPubKey)
          end
      end
  end.

Definition NewES384 (keyTxt : string) (reuse : bool) : option ES384 * option error :=
  let (key, err) := DecodeHexOrB64 keyTxt 120 in
  match err with
  | Some e => (None, Some e)
  | None =>
      let (pub, err) := x509_ParsePKIXPublicKey key in
      match err with
      | Some e => (None, Some e)
      | None =>
          match pub with
          | Some (PubECDSA ecPubKey) =>
              (Some {| es384 := {| ec_key := ecPubKey; ec_base := {| reuse := reuse |} |} |}, None)
          | _ => (None, Some ErrECDSAPubKey)
          end
      end
  end.

Definition NewES512 (keyTxt : string) (reuse : bool) : option ES512 * option error :=
  let (key, err) := DecodeHexOrB64 keyTxt 158 in
  match err with
  | Some e => (None, Some e)
  | None =>
      let (pub, err) := x509_ParsePKIXPublicKey key in
      match err with
      | Some e => (None, Some e)
      | None =>
          match pub with
          | Some (PubECDSA ecPubKey) =>
              (Some {| es512 := {| ec_key := ecPubKey; ec_base := {| reuse := reuse |} |} |}, None)
          | _ => (None, Some ErrECDSAPubKey)
          end
      end
  end.

(** [NewHMAC(keyTxt, reuse) (Tokenizer, error)] *)
Definition NewHMAC (keyTxt : string) (reuse : bool) : iface Tokenizer * option error :=
  if ContainsRune keyTxt colon then (Nil, Some ErrColumnInKey)
  else
    match NewHS256 keyTxt reuse with
    | (tokenizer, None) => (to_iface "*HS256" TokHS256 tokenizer, None)
    | (_, Some _) =>
        match NewHS384 keyTxt reuse with
        | (tokenizer, None) => (to_iface "*HS384" TokHS384 tokenizer, None)
        | (_, Some _) =>
            match NewHS512 keyTxt reuse with
            | (tokenizer, None) => (to_iface "*HS512" TokHS512 tokenizer, None)
            | (_, Some _) => (Nil, Some ErrHMACKey)
            end
        end
    end.

(** [return NewXxx(keyTxt, reuse)] from a function whose result is
    [(Verifier, error)]: the pointer is converted to the interface. *)
Definition as_Verifier {T : Type} (dyn : string) (inj : T -> Verifier)
    (r : option T * option error) : iface Verifier * option error :=
  (to_iface dyn inj (fst r), snd r).

Definition HMAC_as_Verifier (r : iface Tokenizer * option error) : iface Verifier * option error :=
  (tok_to_ver (fst r), snd r).

(** The two error values [NewVerifier] builds with the logger. *)
Definition UnsupportedAlgorithm (algo : string) : error :=
  ParamError (algo ++ notSupportedNotice).

Definition UnknownAlgorithm (scheme algoKey : string) : error :=
  ParamErrorf "Unexpected AlgoKey scheme %q in algoKey=%q" [scheme; algoKey].

(** [NewVerifier(algoKey, reuse) (Verifier, error)] *)
Definition NewVerifier (algoKey : string) (reuse : bool) : outcome (iface Verifier * option error) :=
  let slice := SplitN algoKey colon 2 in
  match slice with
  | [] => Panics "NewVerifier parameter must not be empty"
  | [_] => Returns (HMAC_as_Verifier (NewHMAC algoKey reuse))
  | slice0 :: keyTxt :: _ =>
      let algo := ToUpper slice0 in
      if (algo =? EmptyString)%string || (algo =? "HMAC")%string then
        Returns (HMAC_as_Verifier (NewHMAC keyTxt reuse))
      else if (algo =? "HS256")%string then
        Returns (as_Verifier "*HS256" (fun v => VerTok (TokHS256 v)) (NewHS256 keyTxt reuse))
      else if (algo =? "HS384")%string then
        Returns (as_Verifier "*HS384" (fun v => VerTok (TokHS384 v)) (NewHS384 keyTxt reuse))
      else if (algo =? "HS512")%string then
        Returns (as_Verifier "*HS512" (fun v => VerTok (TokHS512 v)) (NewHS512 keyTxt reuse))
      else if (algo =? "RS256")%string || (algo =? "RS384")%string || (algo =? "RS512")%string then
        Returns (Nil, Some (UnsupportedAlgorithm algo))
      else if (algo =? "PS256")%string || (algo =? "PS384")%string || (algo =? "PS512")%string then
        Returns (Nil, Some (UnsupportedAlgorithm algo))
      else if (algo =? "ES256")%string then
        Returns (as_Verifier "*ES256" VerES256 (NewES256 keyTxt reuse))
      else if (algo =? "ES384")%string then
        Returns (as_Verifier "*ES384" VerES384 (NewES384 keyTxt reuse))
      else if (algo =? "ES512")%string then
        Returns (as_Verifier "*ES512" VerES512 (NewES512 keyTxt reuse))
      else if (algo =? "EDDSA")%string then
        Returns (as_Verifier "*EdDSA" VerEdDSA (NewEdDSA keyTxt reuse))
      else
        Returns (Nil, Some (UnknownAlgorithm slice0 algoKey))
  end.

(** *** The claims pipeline *)

(** [AccessClaimsFromBase64(payload, reuse)]: the claims are returned next
    to the error of [Valid]. *)
Definition AccessClaimsFromBase64 (payload : slice) (reuse : bool)
    : M (option AccessClaims * option error) :=
  let* (payload, err) := B64Decode payload reuse in
  match err with
  | Some _ => ret (None, Some ErrNoBase64JWT)
  | None =>
      let* data := loadM payload in
      let* _ := emit (EvUnmarshal data) in
      match json_Unmarshal data with
      | inr e => ret (None, Some (ClaimError e data))
      | inl claims =>
          let* err := Valid claims in
          ret (Some claims, err)
      end
  end.

(** [claims(v, accessToken)] *)
Definition claims (v : Verifier) (accessToken : slice)
    : M (option AccessClaims * option error) :=
  let* jwt := loadM accessToken in
  match SplitThreeParts jwt with
  | (_, _, Some err) => ret (None, Some err)
  | (p1, p2, None) =>
      let p1 := Z.to_nat p1 in
      let p2 := Z.to_nat p2 in
      let headerPayload := reslice accessToken 0 p2 in
      let signature := reslice accessToken (p2 + 1) (len accessToken) in
      let* ok := Verify v headerPayload signature in
      if negb ok then ret (None, Some ErrJWTSignature)
      else
        let payload := reslice accessToken (p1 + 1) p2 in
        let* (ac, err) := AccessClaimsFromBase64 payload (Reuse v) in
        match err with
        | Some e => ret (None, Some e)
        | None => ret (ac, None)
        end
  end.

End Engine.

(** ** The rest of [verifier.go] and [claims.go] *)

(** [claimError.Error()] and [claimError.Unwrap()], on the two fields of the
    error. *)
Definition claimError_Error (err : string) (claimsBytes : bytes) : string :=
  (err +:+ " => cannot JSON-decode AccessClaims: ") +:+ string_of_list_byte claimsBytes.

Definition claimError_Unwrap (err : string) (claimsBytes : bytes) : string := err.

(** [RefreshClaims] *)
Record RefreshClaims : Type := {
  RefreshRegistered : RegisteredClaims;
  Namespace : string;
  RefreshUsername : string
}.

(** [time.Time.Truncate(d)]: rounds down to a multiple of [d]. *)
Definition Truncate (t d : Z) : Z := (t - t mod d)%Z.

(** [jwt.NewNumericDate(t)] (golang-jwt/jwt v4): the instant truncated to
    [jwt.TimePrecision], which is one second; [second] is the number of
    units of the clock in a second. *)
Definition NewNumericDate (second : Z) (t : Z) : option Z :=
  Some (Truncate t second).

(** [jwt.RegisteredClaims{ExpiresAt: d}]: the other fields are zero. *)
Definition RegisteredClaims_exp (d : option Z) : RegisteredClaims :=
  {| Issuer := EmptyString; Subject := EmptyString; Audience := [];
     ExpiresAt := d; NotBefore := None; IssuedAt := None; ID := EmptyString |}.

(** [newAccessClaims(username, groups, orgs, expiry)] *)
Definition newAccessClaims (second : Z) (username : string) (groups orgs : list string)
    (expiry : Z) : AccessClaims :=
  {| Registered := RegisteredClaims_exp (NewNumericDate second expiry);
     Username := username;
     Groups := groups;
     Orgs := orgs |}.

(** [newRefreshClaims(namespace, user, expiry)] *)
Definition newRefreshClaims (second : Z) (namespace user : string) (expiry : Z) : RefreshClaims :=
  {| RefreshRegistered := RegisteredClaims_exp (NewNumericDate second expiry);
     Namespace := namespace;
     RefreshUsername := user |}.

(** The same verifier with another [reuse] flag. *)
Definition set_reuse (r : bool) (v : Verifier) : Verifier :=
  let bk (k : BytesKey) := {| key := key k; bk_base := {| reuse := r |} |} in
  let ec (k : ECDSA) := {| ec_key := ec_key k; ec_base := {| reuse := r |} |} in
  match v with
  | VerTok (TokHS256 x) => VerTok (TokHS256 {| hs256 := bk (hs256 x) |})
  | VerTok (TokHS384 x) => VerTok (TokHS384 {| hs384 := bk (hs384 x) |})
  | VerTok (TokHS512 x) => VerTok (TokHS512 {| hs512 := bk (hs512 x) |})
  | VerES256 x => VerES256 {| es256 := ec (es256 x) |}
  | VerES384 x => VerES384 {| es384 := ec (es384 x) |}
  | VerES512 x => VerES512 {| es512 := ec (es512 x) |}
  | VerEdDSA x => VerEdDSA {| eddsa := bk (eddsa x) |}
  end.

(** Two slices of the store that share no byte. *)
Definition apart (s d : slice) : Prop :=
  ptr s <> ptr d \/ off s + len s <= off d \/ off d + len d <= off s.

(** *** What the pipeline computes, on byte strings

    The functions below read [Verify], [AccessClaimsFromBase64] and
    [claims] as functions of the bytes the slices show, of the key and of
    the time: no store, no [reuse]. *)

Section Readings.

Context {P : Primitives}.

Definition ecdsa_value (k : ecdsa_PublicKey) (a : HashAlg) (hp sg : bytes) : bool :=
  match B64.DecodeString sg with
  | Some s =>
      ecdsa_Verify k (hash_Sum a hp)
        (SetBytes (take (length s / 2) s)) (SetBytes (drop (length s / 2) s))
  | None => false
  end.

Definition verify_value (v : Verifier) (hp sg : bytes) : bool :=
  match v with
  | VerTok t => verify t hp sg
  | VerES256 x => ecdsa_value (ec_key (es256 x)) SHA256 hp sg
  | VerES384 x => ecdsa_value (ec_key (es384 x)) SHA384 hp sg
  | VerES512 x => ecdsa_value (ec_key (es512 x)) SHA512 hp sg
  | VerEdDSA x =>
      match B64.DecodeString sg with
      | Some s => ed25519_Verify (key (eddsa x)) hp s
      | None => false
      end
  end.

Definition payload_value (payload : bytes) (t : Z) : option AccessClaims * option error :=
  match B64.DecodeString payload with
  | None => (None, Some ErrNoBase64JWT)
  | Some data =>
      match json_Unmarshal data with
      | inr e => (None, Some (ClaimError e data))
      | inl c => (Some c, Valid_at (Registered c) t)
      end
  end.

(** What [claims] makes of the result of [AccessClaimsFromBase64]. *)
Definition drop_claims_on_error (r : option AccessClaims * option error)
    : option AccessClaims * option error :=
  match r with
  | (_, Some e) => (None, Some e)
  | (ac, None) => (ac, None)
  end.

Definition claims_value (v : Verifier) (jwt : bytes) (t : Z) : option AccessClaims * option error :=
  match SplitThreeParts jwt with
  | (_, _, Some err) => (None, Some err)
  | (p1, p2, None) =>
      let p1 := Z.to_nat p1 in
      let p2 := Z.to_nat p2 in
      if negb (verify_value v (take p2 jwt) (drop (p2 + 1) jwt))
      then (None, Some ErrJWTSignature)
      else drop_claims_on_error
             (payload_value (take (p2 - (p1 + 1)) (drop (p1 + 1) jwt)) t)
  end.

End Readings.

(** The number of bytes a tail of [r] characters gives. *)
Definition tail_bytes (r : nat) : nat :=
  match r with
  | 0 | 1 => 0
  | 2 => 1
  | _ => 2
  end.

(** The hash each HMAC tokenizer signs with ([Sign] methods). *)
Definition Tokenizer_alg (t : Tokenizer) : HashAlg :=
  match t with
  | TokHS256 _ => SHA256
  | TokHS384 _ => SHA384
  | TokHS512 _ => SHA512
  end.

(** ** A concrete instance, to run the model on examples

    The primitives are stand-ins (the "MAC" is the key followed by the
    message); no statement below depends on them except through the
    evaluation of examples. *)

Definition toy_claims (exp : option Z) : AccessClaims :=
  {| Registered :=
       {| Issuer := EmptyString; Subject := EmptyString; Audience := [];
          ExpiresAt := exp; NotBefore := None; IssuedAt := None; ID := EmptyString |};
     Username := "jane"; Groups := ["g1"%string]; Orgs := ["o1"%string] |}.

(** Reads the decimal digits up to the closing brace. *)
Fixpoint toy_number (l : bytes) (acc : Z) : option Z :=
  match l with
  | [] => None
  | c :: l' =>
      let n := Byte.to_N c in
      if Byte.eqb c "}"%byte then
        match l' with [] => Some acc | _ => None end
      else if (48 <=? n)%N && (n <=? 57)%N then
        toy_number l' (acc * 10 + Z.of_N (n - 48))%Z
      else None
  end.

(** The text [{"exp":], with [x22] the double quote. *)
Definition toy_exp_member : bytes :=
  bs "{" ++ [x22] ++ bs "exp" ++ [x22] ++ bs ":".

(** A JSON reader for the two shapes the examples use: an empty object, and an
    object with the one member [exp]. *)
Definition toy_Unmarshal (data : bytes) : AccessClaims + string :=
  if bytes_Equal data (bs "{}") then inl (toy_claims None)
  else if bytes_Equal (take 7 data) toy_exp_member then
    match toy_number (drop 7 data) 0 with
    | Some n => inl (toy_claims (Some n))
    | None => inr "invalid character"%string
    end
  else inr "invalid character"%string.

Definition toy : Primitives :=
  {| hmac_Sum := fun _ k m => k ++ m;
     hash_Sum := fun _ m => m;
     ecdsa_Verify := fun _ _ _ _ => false;
     ed25519_Verify := fun _ _ _ => false;
     x509_ParsePKIXPublicKey := fun _ => (None, Some (ErrX509 "asn1: structure error"));
     json_Unmarshal := toy_Unmarshal;
     unicode_ToUpper := fun s => s;
     notSupportedNotice := " is not supported" |}.

(** A store holding one token, and the slice that shows it. *)
Definition store_of (tok : string) : state :=
  State [bs tok] 0 [].

Definition whole (tok : string) : slice := Slice 0 0 (String.length tok).

(** An HS256 tokenizer with the one-byte key [k]. *)
Definition toy_tokenizer (reuse : bool) : Tokenizer :=
  TokHS256 {| hs256 := {| key := bs "k"; bk_base := {| reuse := reuse |} |} |}.

(** Three tokens signed by [toy_tokenizer]: the payloads are
    [{"exp":2000000000}], [{"exp":0}] and [{}]. *)
Definition token_future : string :=
  "e30.eyJleHAiOjIwMDAwMDAwMDB9.a2UzMC5leUpsZUhBaU9qSXdNREF3TURBd01EQjk".
Definition token_zero : string :=
  "e30.eyJleHAiOjB9.a2UzMC5leUpsZUhBaU9qQjk".
Definition token_no_exp : string :=
  "e30.e30.a2UzMC5lMzA".

(** The store of [store_of], at a given time. *)
Definition store_at (tok : string) (t : Z) : state := State [bs tok] t [].

(** A 64-digit hex key (32 bytes). *)
Definition key_hex_32 : string :=
  "eb037d66a3d07cc90c393a9bb04c172ceb037d66a3d07cc90c393a9bb04c172c".


(** * Properties *)

(** ** The model on concrete inputs *)

Example b64_enc_foobar : B64.Encode (bs "foobar") = bs "Zm9vYmFy".
Proof. reflexivity. Qed.

Example b64_enc_fo : B64.Encode (bs "fo") = bs "Zm8".
Proof. reflexivity. Qed.

Example b64_dec_foobar : B64.DecodeString (bs "Zm9vYmFy") = Some (bs "foobar").
Proof. reflexivity. Qed.

Example b64_dec_bad : B64.DecodeString (bs "Zm9v!mFy") = None.
Proof. reflexivity. Qed.

Example hex_dec : Hex.DecodeString (bs "666f6F") = Some (bs "foo").
Proof. reflexivity. Qed.

Example split_ok : SplitThreeParts (bs "aa.bbb.c") = (2%Z, 6%Z, None).
Proof. reflexivity. Qed.

Example split_more_dots : SplitThreeParts (bs "a.b.c.d") = (1%Z, 5%Z, None).
Proof. reflexivity. Qed.

Example split_one_dot : SplitThreeParts (bs "aa.bbb") = (0%Z, 0%Z, Some ErrThreeParts).
Proof. reflexivity. Qed.

Example SplitN_empty : SplitN EmptyString colon 2 = [EmptyString].
Proof. reflexivity. Qed.

Example SplitN_rest : SplitN "a:b:c" colon 2 = ["a"; "b:c"]%string.
Proof. reflexivity. Qed.

Example decode_in_place :
  B64Decode (Slice 0 2 8) true (State [bs "..Zm9vYmFy.."] 0 []) =
  ((Slice 0 2 6, None),
   State [bs "..foobarFy.."] 0 [EvB64Decode (Slice 0 2 8) true]).
Proof. reflexivity. Qed.

Example decode_fresh :
  B64Decode (Slice 0 2 8) false (State [bs "..Zm9vYmFy.."] 0 []) =
  ((Slice 1 0 6, None),
   State [bs "..Zm9vYmFy.."; bs "foobar"] 0 [EvB64Decode (Slice 0 2 8) false]).
Proof. reflexivity. Qed.

Example NewVerifier_hs256 :
  exists k,
    NewVerifier (P := toy) ("hs256:" +:+ key_hex_32) true =
    Returns (Val (VerTok (TokHS256 {| hs256 := {| key := k; bk_base := {| reuse := true |} |} |})), None)
    /\ length k = 32.
Proof. eexists. split; reflexivity. Qed.

Example NewVerifier_bare_key :
  fst <$> (match NewVerifier (P := toy) key_hex_32 false with
           | Returns r => Some r
           | Panics _ => None
           end) =
  fst <$> (match NewVerifier (P := toy) ("HS256:" +:+ key_hex_32) false with
           | Returns r => Some r
           | Panics _ => None
           end).
Proof. reflexivity. Qed.

Example NewVerifier_bad_key_typed_nil :
  NewVerifier (P := toy) "HS256:abcd" false =
  Returns (NilPtr "*HS256", Some (ErrKeyEncoding "abcd" 32)).
Proof. reflexivity. Qed.

Example claims_future :
  fst (claims (P := toy) (VerTok (toy_tokenizer true)) (whole token_future)
         (store_at token_future 1700000000)) =
  (Some (toy_claims (Some 2000000000%Z)), None).
Proof. reflexivity. Qed.

Example claims_zero_exp :
  fst (claims (P := toy) (VerTok (toy_tokenizer true)) (whole token_zero)
         (store_at token_zero 1700000000)) =
  (None, Some (ValidationError 16)).
Proof. reflexivity. Qed.

Example claims_at_expiry :
  fst (claims (P := toy) (VerTok (toy_tokenizer false)) (whole token_future)
         (store_at token_future 2000000000)) =
  (None, Some (ValidationError 16)).
Proof. reflexivity. Qed.

Example claims_no_exp :
  fst (claims (P := toy) (VerTok (toy_tokenizer false)) (whole token_no_exp)
         (store_at token_no_exp 1700000000)) =
  (Some (toy_claims None), None).
Proof. reflexivity. Qed.

Example claims_tampered :
  claims (P := toy) (VerTok (toy_tokenizer true)) (whole "e30.e30.a2UzMC5lMzB")
         (store_of "e30.e30.a2UzMC5lMzB") =
  ((None, Some ErrJWTSignature),
   State [bs "e30.e30.a2UzMC5lMzB"] 0 [EvVerify (Slice 0 0 7) (Slice 0 8 11)]).
Proof. reflexivity. Qed.


(** ** Bytes *)

Lemma byte_eqb_spec (x y : byte) : Byte.eqb x y = bool_decide (x = y).
Proof.
  destruct (Byte.eqb x y) eqn:E.
  - apply Byte.byte_dec_bl in E. subst. by rewrite bool_decide_eq_true_2.
  - apply Byte.eqb_false in E. by rewrite bool_decide_eq_false_2.
Qed.

Lemma bytes_Equal_spec (a b : bytes) : bytes_Equal a b = true <-> a = b.
Proof.
  revert b. induction a as [|x a IH]; intros [|y b]; simpl; try (split; congruence).
  rewrite andb_true_iff, byte_eqb_spec, bool_decide_eq_true, IH.
  split; [intros [-> ->]; done | intros [= -> ->]; done].
Qed.

Lemma bytes_Equal_refl (a : bytes) : bytes_Equal a a = true.
Proof. by apply bytes_Equal_spec. Qed.

Lemma count_byte_cons (c x : byte) (b : bytes) :
  count_byte c (x :: b) = (if decide (x = c) then 1 else 0) + count_byte c b.
Proof.
  unfold count_byte. rewrite filter_cons. destruct (decide (x = c)); done.
Qed.

(** First and last index of [c], against the number of occurrences. *)
Lemma index_spec (c : byte) (b : bytes) (i : Z) :
  (0 <= i)%Z ->
  match count_byte c b with
  | 0 =>
      IndexByte_from i b c = (-1)%Z /\ LastIndexByte_from i b c = (-1)%Z /\
      (forall j, b !! j <> Some c)
  | S k =>
      exists n1 n2 : nat,
        IndexByte_from i b c = (i + Z.of_nat n1)%Z /\
        LastIndexByte_from i b c = (i + Z.of_nat n2)%Z /\
        (k = 0 -> n1 = n2) /\ (0 < k -> n1 < n2) /\
        b !! n1 = Some c /\ b !! n2 = Some c /\
        (forall j, j < n1 -> b !! j <> Some c) /\
        (forall j, n2 < j -> b !! j <> Some c)
  end.
Proof.
  revert i. induction b as [|x b IH]; intros i Hi.
  - simpl. done.
  - rewrite count_byte_cons. simpl IndexByte_from. simpl LastIndexByte_from.
    rewrite byte_eqb_spec.
    specialize (IH (i + 1)%Z ltac:(lia)).
    destruct (decide (x = c)) as [->|Hne].
    + rewrite bool_decide_eq_true_2 by done. simpl.
      destruct (count_byte c b) as [|k].
      * destruct IH as (_ & -> & Hno). simpl.
        exists 0, 0. repeat split; try done; try lia.
        intros j Hj. destruct j; [lia|]. simpl. apply Hno.
      * destruct IH as (n1 & n2 & _ & -> & _ & _ & _ & H2 & _ & Hafter).
        replace (0 <=? i + 1 + Z.of_nat n2)%Z with true
          by (symmetry; apply Z.leb_le; lia).
        exists 0, (S n2). repeat split; try done; try lia.
        intros j Hj. destruct j; [lia|]. simpl. apply Hafter. lia.
    + rewrite bool_decide_eq_false_2 by done. simpl.
      destruct (count_byte c b) as [|k].
      * destruct IH as (-> & -> & Hno). simpl. repeat split; try done.
        intros [|j]; simpl; [congruence | apply Hno].
      * destruct IH as (n1 & n2 & -> & -> & H0 & Hlt & H1 & H2 & Hbefore & Hafter).
        replace (0 <=? i + 1 + Z.of_nat n2)%Z with true
          by (symmetry; apply Z.leb_le; lia).
        exists (S n1), (S n2). repeat split; try done; try lia.
        -- intros [|j] Hj; simpl; [congruence | apply Hbefore; lia].
        -- intros [|j] Hj; simpl; [lia | apply Hafter; lia].
Qed.

Lemma SplitThreeParts_spec (jwt : bytes) :
  match count_byte "."%byte jwt with
  | 0 | 1 => SplitThreeParts jwt = (0%Z, 0%Z, Some ErrThreeParts)
  | _ =>
      exists p1 p2 : nat,
        SplitThreeParts jwt = (Z.of_nat p1, Z.of_nat p2, None) /\
        p1 < p2 /\
        jwt !! p1 = Some "."%byte /\ jwt !! p2 = Some "."%byte /\
        (forall j, j < p1 -> jwt !! j <> Some "."%byte) /\
        (forall j, p2 < j -> jwt !! j <> Some "."%byte)
  end.
Proof.
  pose proof (index_spec "."%byte jwt 0 ltac:(lia)) as H.
  unfold SplitThreeParts, IndexByte, LastIndexByte.
  destruct (count_byte "."%byte jwt) as [|[|k]].
  - destruct H as (-> & -> & _). reflexivity.
  - destruct H as (n1 & n2 & -> & -> & Heq & _).
    rewrite (Heq eq_refl).
    replace (0 + Z.of_nat n2 <? 0)%Z with false by (symmetry; apply Z.ltb_ge; lia).
    replace (0 + Z.of_nat n2 >=? 0 + Z.of_nat n2)%Z with true
      by (symmetry; rewrite Z.geb_leb; apply Z.leb_le; lia).
    reflexivity.
  - destruct H as (n1 & n2 & -> & -> & _ & Hlt & H1 & H2 & Hb & Ha).
    specialize (Hlt ltac:(lia)).
    replace (0 + Z.of_nat n1 <? 0)%Z with false by (symmetry; apply Z.ltb_ge; lia).
    replace (0 + Z.of_nat n1 >=? 0 + Z.of_nat n2)%Z with false
      by (symmetry; rewrite Z.geb_leb; apply Z.leb_gt; lia).
    simpl. exists n1, n2. rewrite !Z.add_0_l. done.
Qed.

Lemma load_prefix (m : store) (s : slice) (n : nat) :
  n <= len s -> load m (reslice s 0 n) = take n (load m s).
Proof.
  intros Hn. unfold load, reslice. simpl.
  rewrite Nat.add_0_r, Nat.sub_0_r.
  destruct (m !! ptr s) as [buf|]; [|by rewrite take_nil].
  rewrite take_take. f_equal. lia.
Qed.

Lemma load_suffix (m : store) (s : slice) (n : nat) :
  load m (reslice s n (len s)) = drop n (load m s).
Proof.
  unfold load, reslice. simpl.
  destruct (m !! ptr s) as [buf|]; [|by rewrite drop_nil].
  rewrite skipn_firstn_comm, drop_drop. done.
Qed.

Lemma load_length (m : store) (s : slice) : length (load m s) <= len s.
Proof.
  unfold load. destruct (m !! ptr s); simpl; [|lia].
  rewrite length_take. lia.
Qed.

Section EngineFacts.

Context {P : Primitives}.

(** *** Signature engine *)

Lemma length_Encode (l : bytes) :
  length (B64.Encode l) = B64.EncodedLen (length l).
Proof.
  unfold B64.EncodedLen.
  induction l as [l IH] using (induction_ltof1 _ (@length byte)).
  unfold ltof in IH.
  destruct l as [|a [|b [|c rest]]]; try reflexivity.
  cbn [B64.Encode length]. rewrite IH by (simpl; lia).
  replace (S (S (S (length rest))) * 8 + 5) with (length rest * 8 + 5 + 4 * 6) by lia.
  rewrite Nat.div_add by lia. lia.
Qed.

Lemma fill_exact (dst src : bytes) : length dst = length src -> fill dst src = src.
Proof.
  intros H. unfold fill. rewrite H, firstn_all.
  rewrite <- H, drop_all. apply app_nil_r.
Qed.

(** [sign] is the base64 text of the MAC of what it was given. *)
Lemma sign_eq (d : Hash) (hp : bytes) :
  sign d hp = B64.Encode (Hash_Sum (Hash_Write d hp) []).
Proof.
  unfold sign. apply fill_exact.
  rewrite length_replicate, length_Encode. done.
Qed.

(** [verify] accepts exactly the signature [Sign] computes. *)
Lemma verify_iff (v : Tokenizer) (hp sig : bytes) :
  verify v hp sig = true <-> sig = Sign v hp.
Proof.
  unfold verify. rewrite bytes_Equal_spec. split; congruence.
Qed.

(** C1: for every HMAC tokenizer (HS256, HS384, HS512), whatever its key,
    and every header+payload [hp], [Verify(hp, Sign(hp))] is true. *)
Theorem C1_verify_sign_roundtrip (v : Tokenizer) (hp : bytes) :
  verify v hp (Sign v hp) = true.
Proof.
  unfold verify. apply bytes_Equal_refl.
Qed.

(** The same through the [Verifier] interface, on slices of the store. *)
Lemma Verify_Sign_roundtrip (t : Tokenizer) (hp sg : slice) (st : state) :
  load (mem st) sg = Sign t (load (mem st) hp) ->
  fst (Verify (VerTok t) hp sg st) = true.
Proof.
  intros H. change (verify t (load (mem st) hp) (load (mem st) sg) = true).
  rewrite H. apply bytes_Equal_refl.
Qed.

(** *** The claims pipeline *)

Lemma claims_unfold (v : Verifier) (tok : slice) (st : state) :
  claims v tok st =
  match SplitThreeParts (load (mem st) tok) with
  | (_, _, Some err) => ((None, Some err), st)
  | (p1, p2, None) =>
      let hp := reslice tok 0 (Z.to_nat p2) in
      let sig := reslice tok (Z.to_nat p2 + 1) (len tok) in
      let (ok, st1) := Verify v hp sig st in
      if negb ok then ((None, Some ErrJWTSignature), st1)
      else
        let '(ac, err, st2) :=
          AccessClaimsFromBase64
            (reslice tok (Z.to_nat p1 + 1) (Z.to_nat p2)) (Reuse v) st1 in
        match err with
        | Some e => ((None, Some e), st2)
        | None => ((ac, None), st2)
        end
  end.
Proof.
  unfold claims, bind, loadM.
  destruct (SplitThreeParts (load (mem st) tok)) as [[p1 p2] [e|]]; [reflexivity|].
  cbv zeta. destruct (Verify v _ _ st) as [[] st1]; simpl; [|reflexivity].
  destruct (AccessClaimsFromBase64 _ _ st1) as [[ac [e|]] st2]; reflexivity.
Qed.

(** What [B64Decode] leaves in the trace and the clock. *)
Lemma B64Decode_trace (b64 : slice) (r : bool) (st : state) :
  trace (snd (B64Decode b64 r st)) = trace st ++ [EvB64Decode b64 r] /\
  clock (snd (B64Decode b64 r st)) = clock st.
Proof.
  unfold B64Decode, bind, emit, with_mem. simpl.
  destruct (if negb r then _ else _) as [m0 out].
  destruct (Decode m0 out b64) as [m1 [n [e|]]]; simpl; done.
Qed.

(** The HMAC [Verify] reads the two slices and compares; it writes nothing. *)
Lemma Verify_HMAC (t : Tokenizer) (hp sig : slice) (st : state) :
  Verify (VerTok t) hp sig st =
  (verify t (load (mem st) hp) (load (mem st) sig),
   State (mem st) (clock st) (trace st ++ [EvVerify hp sig])).
Proof. reflexivity. Qed.

(** Every [Verify] logs its call, then at most the decode of the signature
    slice (asymmetric schemes). *)
Lemma Verify_trace (v : Verifier) (hp sig : slice) (st : state) :
  trace (snd (Verify v hp sig st)) =
  trace st ++ EvVerify hp sig ::
    match v with
    | VerTok _ => []
    | _ => [EvB64Decode sig (Reuse v)]
    end.
Proof.
  destruct v as [t|v|v|v|v]; [reflexivity| | | |];
    unfold Verify, ECDSA_verify, EdDSA_verify, bind, loadM, ret; simpl;
    match goal with
    | |- context [B64Decode ?s ?r ?st0] =>
        pose proof (B64Decode_trace s r st0) as [Ht _];
        destruct (B64Decode s r st0) as [[sg [e|]] st1]
    end; simpl in *; rewrite Ht; simpl; rewrite <- app_assoc; reflexivity.
Qed.

Lemma AccessClaimsFromBase64_trace (payload : slice) (r : bool) (st : state) :
  exists rest,
    trace (snd (AccessClaimsFromBase64 payload r st)) =
    trace st ++ EvB64Decode payload r :: rest.
Proof.
  unfold AccessClaimsFromBase64, bind.
  pose proof (B64Decode_trace payload r st) as [Ht _].
  destruct (B64Decode payload r st) as [[pl [e|]] st1]; simpl in *.
  - exists []. done.
  - unfold loadM, emit, Valid, now, bind, ret, emit. simpl.
    destruct (json_Unmarshal _); simpl; rewrite Ht, <- !app_assoc; simpl; eauto.
Qed.

(** C3: [SplitThreeParts] fails, with [ErrThreeParts], exactly on the
    tokens that have fewer than two dots; with two dots or more it returns
    the index of the first dot and the index of the last one; and on a
    token with fewer than two dots [claims] returns that error and leaves
    the state as it found it: no [Verify] was called, whatever the
    verifier. *)
Theorem C3_three_parts (jwt : bytes) :
  (snd (SplitThreeParts jwt) = Some ErrThreeParts <-> count_byte "."%byte jwt < 2) /\
  (2 <= count_byte "."%byte jwt ->
     exists p1 p2 : nat,
       SplitThreeParts jwt = (Z.of_nat p1, Z.of_nat p2, None) /\
       p1 < p2 /\
       jwt !! p1 = Some "."%byte /\ jwt !! p2 = Some "."%byte /\
       (forall j, j < p1 -> jwt !! j <> Some "."%byte) /\
       (forall j, p2 < j -> jwt !! j <> Some "."%byte)) /\
  (forall (v : Verifier) (tok : slice) (st : state),
     load (mem st) tok = jwt -> count_byte "."%byte jwt < 2 ->
     claims v tok st = ((None, Some ErrThreeParts), st)).
Proof.
  pose proof (SplitThreeParts_spec jwt) as H.
  split; [|split].
  - destruct (count_byte "."%byte jwt) as [|[|k]].
    + rewrite H. simpl. split; [lia|done].
    + rewrite H. simpl. split; [lia|done].
    + destruct H as (p1 & p2 & -> & _). simpl. split; [done|lia].
  - intros Hc. destruct (count_byte "."%byte jwt) as [|[|k]]; [lia|lia|exact H].
  - intros v tok st Hload Hc. rewrite claims_unfold, Hload.
    destruct (count_byte "."%byte jwt) as [|[|k]]; [| |lia]; by rewrite H.
Qed.

(** C7: on a token [SplitThreeParts] accepts, [claims] calls [Verify] on
    the slice of the bytes before the last dot and the slice of the bytes
    after it; when [Verify] says no, the result is [ErrJWTSignature] and the
    state is the one [Verify] left: the trace has gained the [Verify] call
    (and, for the asymmetric schemes, the decode of the signature slice) and
    no base64 decode of the payload slice nor any JSON decode. *)
Theorem C7_signature_before_payload (v : Verifier) (tok : slice) (st : state) (p1 p2 : Z) :
  SplitThreeParts (load (mem st) tok) = (p1, p2, None) ->
  let hp := reslice tok 0 (Z.to_nat p2) in
  let sg := reslice tok (Z.to_nat p2 + 1) (len tok) in
  let payload := reslice tok (Z.to_nat p1 + 1) (Z.to_nat p2) in
  load (mem st) hp = take (Z.to_nat p2) (load (mem st) tok) /\
  load (mem st) sg = drop (Z.to_nat p2 + 1) (load (mem st) tok) /\
  (exists rest, trace (snd (claims v tok st)) = trace st ++ EvVerify hp sg :: rest) /\
  (fst (Verify v hp sg st) = false ->
     claims v tok st = ((None, Some ErrJWTSignature), snd (Verify v hp sg st)) /\
     Forall (fun e => decodes_payload payload e = false)
            (drop (length (trace st)) (trace (snd (claims v tok st))))).
Proof.
  intros Hsplit hp sg payload.
  assert (Hp2 : Z.to_nat p2 < length (load (mem st) tok) /\ Z.to_nat p1 < Z.to_nat p2).
  { pose proof (SplitThreeParts_spec (load (mem st) tok)) as H.
    destruct (count_byte "."%byte (load (mem st) tok)) as [|[|k]];
      [congruence|congruence|].
    destruct H as (n1 & n2 & H & Hlt & _ & H2 & _).
    rewrite Hsplit in H. injection H as -> ->.
    rewrite !Nat2Z.id. split; [|done]. by apply lookup_lt_Some in H2. }
  destruct Hp2 as [Hp2 Hp1].
  pose proof (load_length (mem st) tok) as Hlen.
  split; [apply load_prefix; lia|].
  split; [apply load_suffix|].
  pose proof (Verify_trace v hp sg st) as Htr.
  rewrite claims_unfold, Hsplit. cbv zeta. fold hp sg payload.
  destruct (Verify v hp sg st) as [ok st1] eqn:EV. simpl in Htr |- *.
  split.
  - destruct ok; simpl.
    + destruct (AccessClaimsFromBase64_trace payload (Reuse v) st1) as [rest Hr].
      destruct (AccessClaimsFromBase64 payload (Reuse v) st1) as [[ac [e|]] st2];
        simpl in *; rewrite Hr, Htr, <- app_assoc; simpl; eauto.
    + rewrite Htr. eauto.
  - intros ->. simpl. split; [done|].
    rewrite Htr, drop_app_length.
    constructor; [done|].
    destruct v; simpl; constructor; try done.
    all: simpl; apply bool_decide_eq_false_2; subst sg payload; unfold reslice;
      intros [= Heq]; lia.
Qed.

(** *** The factory *)

Lemma cut_None (s : string) : ContainsRune s colon = false -> cut s colon = None.
Proof.
  induction s as [|x s IH]; simpl; [done|].
  intros H. apply orb_false_iff in H as [-> H]. by rewrite IH.
Qed.

Lemma cut_app (a b : string) :
  ContainsRune a colon = false -> cut (a +:+ String colon b) colon = Some (a, b).
Proof.
  induction a as [|x a IH]; simpl.
  - intros _. reflexivity.
  - intros H. apply orb_false_iff in H as [-> H]. by rewrite IH.
Qed.

Lemma SplitN_2 (s : string) :
  SplitN s colon 2 =
  match cut s colon with
  | None => [s]
  | Some (a, b) => [a; b]
  end.
Proof.
  unfold SplitN. destruct s as [|x s].
  - reflexivity.
  - replace (Nat.min 2 (String.length (String x s) + 1) - 1) with 1
      by (cbn [String.length]; lia).
    simpl. destruct (Ascii.eqb x colon); [reflexivity|].
    destruct (cut s colon) as [[a b]|]; reflexivity.
Qed.

Lemma SplitN_nonempty (s : string) : 1 <= length (SplitN s colon 2).
Proof.
  rewrite SplitN_2. destruct (cut s colon) as [[a b]|]; simpl; lia.
Qed.

Lemma DecodeHexOrB64_decoding (txt : string) (n : nat) :
  match decoding txt n with
  | Some k => DecodeHexOrB64 txt n = (k, None) /\ length k = n
  | None => DecodeHexOrB64 txt n = ([], Some (ErrKeyEncoding txt n))
  end.
Proof.
  unfold decoding, DecodeHexOrB64.
  destruct (Hex.DecodeString (bs txt)) as [h|];
    [destruct (length h =? n) eqn:Eh; [by apply Nat.eqb_eq in Eh|]|];
    (destruct (B64.DecodeString (bs txt)) as [b|];
     [destruct (length b =? n) eqn:Eb; [by apply Nat.eqb_eq in Eb|]|]); done.
Qed.

Lemma decoding_has (txt : string) (n : nat) :
  has_decoding txt n = false <-> decoding txt n = None.
Proof.
  unfold has_decoding, decoding.
  destruct (Hex.DecodeString (bs txt)) as [h|];
    [destruct (length h =? n) eqn:Eh|];
    (destruct (B64.DecodeString (bs txt)) as [b|];
     [destruct (length b =? n) eqn:Eb|]); simpl; split; congruence.
Qed.

(** C10: [NewVerifier] returns a pair for every descriptor: [SplitN] yields
    at least one element, so the panic branch is never taken; the empty
    descriptor goes to [NewHMAC], which returns the error [ErrHMACKey]. *)
Theorem C10_NewVerifier_returns (algoKey : string) (reuse : bool) :
  (exists v err, NewVerifier algoKey reuse = Returns (v, err)) /\
  1 <= length (SplitN algoKey colon 2) /\
  NewVerifier EmptyString reuse =
    Returns (HMAC_as_Verifier (NewHMAC EmptyString reuse)) /\
  NewHMAC EmptyString reuse = (Nil, Some ErrHMACKey).
Proof.
  split; [|split; [apply SplitN_nonempty|split; reflexivity]].
  unfold NewVerifier. rewrite SplitN_2.
  destruct (cut algoKey colon) as [[a b]|]; [|eexists _, _; apply f_equal, surjective_pairing].
  cbv zeta.
  repeat match goal with
         | |- context [if ?c then _ else _] => destruct c
         end;
    eexists _, _; apply f_equal, surjective_pairing.
Qed.

(** C6: on a descriptor [prefix:keyTxt] whose prefix, in upper case, is one
    of RS256, RS384, RS512, PS256, PS384, PS512, [NewVerifier] returns the
    nil verifier and the "not supported" error; when the prefix is none of
    the names [NewVerifier] knows, it returns the nil verifier and the
    "unexpected scheme" error; the two errors differ. *)
Theorem C6_unsupported_and_unknown (prefix keyTxt : string) (reuse : bool) :
  ContainsRune prefix colon = false ->
  let algoKey := prefix +:+ ":" +:+ keyTxt in
  let algo := ToUpper prefix in
  (In algo unsupported_names ->
     NewVerifier algoKey reuse = Returns (Nil, Some (UnsupportedAlgorithm algo))) /\
  (~ In algo (supported_names ++ unsupported_names) ->
     NewVerifier algoKey reuse = Returns (Nil, Some (UnknownAlgorithm prefix algoKey))) /\
  UnsupportedAlgorithm algo <> UnknownAlgorithm prefix algoKey.
Proof.
  intros Hp algoKey algo.
  assert (Hsplit : SplitN algoKey colon 2 = [prefix; keyTxt]).
  { rewrite SplitN_2. subst algoKey. change (":" +:+ keyTxt) with (String colon keyTxt).
    by rewrite (cut_app prefix keyTxt Hp). }
  split; [|split; [|done]].
  - intros Hin. unfold NewVerifier. rewrite Hsplit. cbv zeta. fold algo.
    simpl in Hin.
    destruct Hin as [H|[H|[H|[H|[H|[H|[]]]]]]]; rewrite <- H; reflexivity.
  - intros Hnot. unfold NewVerifier. rewrite Hsplit. cbv zeta. fold algo.
    repeat match goal with
           | |- context [String.eqb algo ?b] =>
               let E := fresh "E" in
               destruct (String.eqb_spec algo b) as [E|E];
               [exfalso; apply Hnot; rewrite E; simpl; tauto|]
           end.
    reflexivity.
Qed.

(** C5: for a descriptor with no colon, [NewVerifier] hands the whole text
    to [NewHMAC], and [NewHMAC] tries HS256, HS384, HS512 in that order: a
    text that decodes (hex first, then base64) to 32 bytes gives an HS256
    tokenizer, else to 48 bytes an HS384 one, else to 64 bytes an HS512 one,
    else the error [ErrHMACKey]. *)
Theorem C5_NewHMAC_resolution (keyTxt : string) (reuse : bool) :
  ContainsRune keyTxt colon = false ->
  NewVerifier keyTxt reuse = Returns (HMAC_as_Verifier (NewHMAC keyTxt reuse)) /\
  NewHMAC keyTxt reuse =
    match decoding keyTxt 32, decoding keyTxt 48, decoding keyTxt 64 with
    | Some k, _, _ =>
        (Val (TokHS256 {| hs256 := {| key := k; bk_base := {| reuse := reuse |} |} |}), None)
    | None, Some k, _ =>
        (Val (TokHS384 {| hs384 := {| key := k; bk_base := {| reuse := reuse |} |} |}), None)
    | None, None, Some k =>
        (Val (TokHS512 {| hs512 := {| key := k; bk_base := {| reuse := reuse |} |} |}), None)
    | None, None, None => (Nil, Some ErrHMACKey)
    end.
Proof.
  intros Hc. split.
  - unfold NewVerifier. rewrite SplitN_2, (cut_None _ Hc). reflexivity.
  - unfold NewHMAC, NewHS256, NewHS384, NewHS512. rewrite Hc.
    pose proof (DecodeHexOrB64_decoding keyTxt 32) as H32.
    pose proof (DecodeHexOrB64_decoding keyTxt 48) as H48.
    pose proof (DecodeHexOrB64_decoding keyTxt 64) as H64.
    destruct (decoding keyTxt 32) as [k|]; [destruct H32 as [-> _]; reflexivity|].
    rewrite H32.
    destruct (decoding keyTxt 48) as [k|]; [destruct H48 as [-> _]; reflexivity|].
    rewrite H48.
    destruct (decoding keyTxt 64) as [k|]; [destruct H64 as [-> _]; reflexivity|].
    rewrite H64. reflexivity.
Qed.

(** A key text with a colon is refused before any decoding. *)
Lemma NewHMAC_colon (keyTxt : string) (reuse : bool) :
  ContainsRune keyTxt colon = true -> NewHMAC keyTxt reuse = (Nil, Some ErrColumnInKey).
Proof. intros H. unfold NewHMAC. by rewrite H. Qed.

(** Each constructor refuses a text without a decoding of its length, and
    what it accepts is the decoding of that length. *)
Ltac decode_cases txt n :=
  let H := fresh "H" in
  pose proof (DecodeHexOrB64_decoding txt n) as H;
  destruct (decoding txt n) as [?k|];
  [destruct H as [H ?]|]; rewrite H.

Lemma NewHS256_decoding (keyTxt : string) (reuse : bool) :
  NewHS256 keyTxt reuse =
  match decoding keyTxt 32 with
  | Some k => (Some {| hs256 := {| key := k; bk_base := {| reuse := reuse |} |} |}, None)
  | None => (None, Some (ErrKeyEncoding keyTxt 32))
  end.
Proof. unfold NewHS256. decode_cases keyTxt 32; reflexivity. Qed.

Lemma NewHS384_decoding (keyTxt : string) (reuse : bool) :
  NewHS384 keyTxt reuse =
  match decoding keyTxt 48 with
  | Some k => (Some {| hs384 := {| key := k; bk_base := {| reuse := reuse |} |} |}, None)
  | None => (None, Some (ErrKeyEncoding keyTxt 48))
  end.
Proof. unfold NewHS384. decode_cases keyTxt 48; reflexivity. Qed.

Lemma NewHS512_decoding (keyTxt : string) (reuse : bool) :
  NewHS512 keyTxt reuse =
  match decoding keyTxt 64 with
  | Some k => (Some {| hs512 := {| key := k; bk_base := {| reuse := reuse |} |} |}, None)
  | None => (None, Some (ErrKeyEncoding keyTxt 64))
  end.
Proof. unfold NewHS512. decode_cases keyTxt 64; reflexivity. Qed.

Lemma decoding_length (txt : string) (n : nat) (k : bytes) :
  decoding txt n = Some k -> length k = n.
Proof.
  intros H. pose proof (DecodeHexOrB64_decoding txt n) as H'.
  rewrite H in H'. tauto.
Qed.

Lemma NewES256_decoding (keyTxt : string) (reuse : bool) :
  match decoding keyTxt 91 with
  | Some der =>
      forall v, NewES256 keyTxt reuse = (Some v, None) ->
                x509_ParsePKIXPublicKey der = (Some (PubECDSA (ec_key (es256 v))), None)
  | None => NewES256 keyTxt reuse = (None, Some (ErrKeyEncoding keyTxt 91))
  end.
Proof.
  unfold NewES256. decode_cases keyTxt 91; [|reflexivity].
  intros v. destruct (x509_ParsePKIXPublicKey k) as [[[ec|ed|]|] [e|]];
    intros [= <-]; reflexivity.
Qed.

Lemma NewES384_decoding (keyTxt : string) (reuse : bool) :
  match decoding keyTxt 120 with
  | Some der =>
      forall v, NewES384 keyTxt reuse = (Some v, None) ->
                x509_ParsePKIXPublicKey der = (Some (PubECDSA (ec_key (es384 v))), None)
  | None => NewES384 keyTxt reuse = (None, Some (ErrKeyEncoding keyTxt 120))
  end.
Proof.
  unfold NewES384. decode_cases keyTxt 120; [|reflexivity].
  intros v. destruct (x509_ParsePKIXPublicKey k) as [[[ec|ed|]|] [e|]];
    intros [= <-]; reflexivity.
Qed.

Lemma NewES512_decoding (keyTxt : string) (reuse : bool) :
  match decoding keyTxt 158 with
  | Some der =>
      forall v, NewES512 keyTxt reuse = (Some v, None) ->
                x509_ParsePKIXPublicKey der = (Some (PubECDSA (ec_key (es512 v))), None)
  | None => NewES512 keyTxt reuse = (None, Some (ErrKeyEncoding keyTxt 158))
  end.
Proof.
  unfold NewES512. decode_cases keyTxt 158; [|reflexivity].
  intros v. destruct (x509_ParsePKIXPublicKey k) as [[[ec|ed|]|] [e|]];
    intros [= <-]; reflexivity.
Qed.

Lemma NewEdDSA_decoding (keyTxt : string) (reuse : bool) :
  match decoding keyTxt 44 with
  | Some der =>
      forall v, NewEdDSA keyTxt reuse = (Some v, None) ->
                x509_ParsePKIXPublicKey der = (Some (PubEd25519 (key (eddsa v))), None)
  | None => NewEdDSA keyTxt reuse = (None, Some (ErrKeyEncoding keyTxt 44))
  end.
Proof.
  unfold NewEdDSA. decode_cases keyTxt 44; [|reflexivity].
  intros v. destruct (x509_ParsePKIXPublicKey k) as [[[ec|ed|]|] [e|]];
    intros [= <-]; reflexivity.
Qed.

(** C4: a key text that has no decoding (hex or base64) of exactly the
    length the algorithm requires (32, 48, 64 bytes for HS256, HS384,
    HS512; 91, 120, 158 for ES256, ES384, ES512; 44 for EdDSA) is refused by
    the constructor, which returns no verifier and an error; and a verifier
    that a constructor does return was built from a decoding of exactly
    that length (which, for HMAC, is its key). *)
Theorem C4_key_length_at_construction (keyTxt : string) (reuse : bool) :
  (has_decoding keyTxt 32 = false -> exists e, NewHS256 keyTxt reuse = (None, Some e)) /\
  (has_decoding keyTxt 48 = false -> exists e, NewHS384 keyTxt reuse = (None, Some e)) /\
  (has_decoding keyTxt 64 = false -> exists e, NewHS512 keyTxt reuse = (None, Some e)) /\
  (has_decoding keyTxt 91 = false -> exists e, NewES256 keyTxt reuse = (None, Some e)) /\
  (has_decoding keyTxt 120 = false -> exists e, NewES384 keyTxt reuse = (None, Some e)) /\
  (has_decoding keyTxt 158 = false -> exists e, NewES512 keyTxt reuse = (None, Some e)) /\
  (has_decoding keyTxt 44 = false -> exists e, NewEdDSA keyTxt reuse = (None, Some e)) /\
  (forall v, NewHS256 keyTxt reuse = (Some v, None) ->
     decoding keyTxt 32 = Some (key (hs256 v)) /\ length (key (hs256 v)) = 32) /\
  (forall v, NewHS384 keyTxt reuse = (Some v, None) ->
     decoding keyTxt 48 = Some (key (hs384 v)) /\ length (key (hs384 v)) = 48) /\
  (forall v, NewHS512 keyTxt reuse = (Some v, None) ->
     decoding keyTxt 64 = Some (key (hs512 v)) /\ length (key (hs512 v)) = 64) /\
  (forall v, NewES256 keyTxt reuse = (Some v, None) ->
     exists der, decoding keyTxt 91 = Some der /\ length der = 91) /\
  (forall v, NewES384 keyTxt reuse = (Some v, None) ->
     exists der, decoding keyTxt 120 = Some der /\ length der = 120) /\
  (forall v, NewES512 keyTxt reuse = (Some v, None) ->
     exists der, decoding keyTxt 158 = Some der /\ length der = 158) /\
  (forall v, NewEdDSA keyTxt reuse = (Some v, None) ->
     exists der, decoding keyTxt 44 = Some der /\ length der = 44).
Proof.
  pose proof (NewHS256_decoding keyTxt reuse) as A1.
  pose proof (NewHS384_decoding keyTxt reuse) as A2.
  pose proof (NewHS512_decoding keyTxt reuse) as A3.
  pose proof (NewES256_decoding keyTxt reuse) as A4.
  pose proof (NewES384_decoding keyTxt reuse) as A5.
  pose proof (NewES512_decoding keyTxt reuse) as A6.
  pose proof (NewEdDSA_decoding keyTxt reuse) as A7.
  pose proof (decoding_length keyTxt) as L.
  split_and!.
  1-7: intros Hd; apply decoding_has in Hd; rewrite Hd in *; eauto.
  1-3: intros v Hv;
       match type of Hv with
       | ?f _ _ = _ =>
           match goal with
           | A : f _ _ = match decoding _ ?n with _ => _ end |- _ =>
               rewrite Hv in A; destruct (decoding keyTxt n) as [k|] eqn:E;
               [injection A as ->; simpl; split; [done|by apply L]|discriminate]
           end
       end.
  all: intros v Hv;
       match goal with
       | |- exists _, decoding _ ?n = _ /\ _ =>
           destruct (decoding keyTxt n) as [k|] eqn:E; [eauto|congruence]
       end.
Qed.

(** *** Claims validation *)

(** The Expired bit (bit 4) is set exactly when [exp] is there and the clock
    has reached it. *)
Lemma expired_bit (rc : RegisteredClaims) (t : Z) :
  Z.testbit (validation_errors rc t) 4 = negb (verifyExp (ExpiresAt rc) t false).
Proof.
  unfold validation_errors.
  destruct (verifyExp (ExpiresAt rc) t false),
           (verifyIat (IssuedAt rc) t false),
           (verifyNbf (NotBefore rc) t false); reflexivity.
Qed.

Lemma validation_errors_zero (rc : RegisteredClaims) (t : Z) :
  validation_errors rc t = 0%Z <->
  verifyExp (ExpiresAt rc) t false = true /\
  verifyIat (IssuedAt rc) t false = true /\
  verifyNbf (NotBefore rc) t false = true.
Proof.
  unfold validation_errors.
  destruct (verifyExp (ExpiresAt rc) t false),
           (verifyIat (IssuedAt rc) t false),
           (verifyNbf (NotBefore rc) t false); simpl; split;
    first [done | intros (? & ? & ?); done | intros H; vm_compute in H; done].
Qed.

Lemma Valid_fst (c : AccessClaims) (st : state) :
  fst (Valid c st) = Valid_at (Registered c) (clock st).
Proof. reflexivity. Qed.

(** The validation step of [AccessClaimsFromBase64]: once the payload is
    decoded into claims, these are returned with the verdict of [Valid] at
    the time of the call. *)
Lemma AccessClaimsFromBase64_valid_step
    (payload : slice) (r : bool) (st : state) (pl : slice) (st1 : state) (c : AccessClaims) :
  B64Decode payload r st = ((pl, None), st1) ->
  json_Unmarshal (load (mem st1) pl) = inl c ->
  fst (AccessClaimsFromBase64 payload r st) =
  (Some c, Valid_at (Registered c) (clock st)).
Proof.
  intros HB HJ. pose proof (B64Decode_trace payload r st) as [_ Hclk].
  unfold AccessClaimsFromBase64, bind. rewrite HB in *. simpl in Hclk.
  unfold loadM, emit, Valid, now, bind, emit, ret. simpl. rewrite HJ. simpl.
  by rewrite Hclk.
Qed.

(** C2, as the code has it: the claims decoded by [AccessClaimsFromBase64]
    come back with an error that carries the Expired bit exactly when [exp]
    is present and the clock has reached it ([exp = now] is expired; a zero
    [exp] is expired at any time from the epoch on), and with some error
    whenever that is so; claims without [exp] never get the Expired bit. *)
Theorem C2_expiry_validation
    (payload : slice) (r : bool) (st : state) (pl : slice) (st1 : state) (c : AccessClaims) :
  B64Decode payload r st = ((pl, None), st1) ->
  json_Unmarshal (load (mem st1) pl) = inl c ->
  let t := clock st in
  let res := fst (AccessClaimsFromBase64 payload r st) in
  let exp := ExpiresAt (Registered c) in
  fst res = Some c /\
  ((exists bits, snd res = Some (ValidationError bits) /\ Z.testbit bits 4 = true) <->
   (exists e, exp = Some e /\ (e <= t)%Z)) /\
  ((exists e, exp = Some e /\ (e <= t)%Z) -> snd res <> None) /\
  (exp = Some 0%Z -> (0 <= t)%Z -> snd res <> None) /\
  (exp = None -> IssuedAt (Registered c) = None -> NotBefore (Registered c) = None ->
     snd res = None).
Proof.
  intros HB HJ t res exp.
  assert (Hres : res = (Some c, Valid_at (Registered c) t))
    by (apply (AccessClaimsFromBase64_valid_step _ _ _ _ _ _ HB HJ)).
  rewrite Hres. cbn [fst snd]. clear Hres res HB HJ.
  assert (Hexp : (exists e, exp = Some e /\ (e <= t)%Z) <->
                 verifyExp exp t false = false).
  { unfold verifyExp. destruct exp as [e|]; simpl.
    - rewrite Z.ltb_ge. split; [intros (e' & [= <-] & ?); done | eauto].
    - split; [intros (e' & ? & ?); done | done]. }
  assert (Herr : verifyExp exp t false = false ->
                 Valid_at (Registered c) t <> None).
  { intros Hv. unfold Valid_at.
    destruct (validation_errors (Registered c) t =? 0)%Z eqn:E; [|done].
    apply Z.eqb_eq, validation_errors_zero in E as [E _].
    fold exp in E. congruence. }
  split_and!.
  - done.
  - rewrite Hexp. unfold Valid_at. split.
    + intros (bits & Hb & Hbit).
      destruct (validation_errors (Registered c) t =? 0)%Z; [done|].
      assert (Hb' : validation_errors (Registered c) t = bits) by congruence.
      rewrite <- Hb', expired_bit in Hbit. fold exp in Hbit.
      by destruct (verifyExp exp t false).
    + intros Hv. specialize (Herr Hv). unfold Valid_at in Herr.
      destruct (validation_errors (Registered c) t =? 0)%Z; [done|].
      eexists. split; [done|]. rewrite expired_bit. fold exp. by rewrite Hv.
  - intros H. by apply Herr, Hexp.
  - intros H0 Ht. apply Herr, Hexp. eauto.
  - intros He Hi Hn. unfold Valid_at.
    replace (validation_errors (Registered c) t) with 0%Z; [done|].
    symmetry. apply validation_errors_zero. fold exp. rewrite He, Hi, Hn. done.
Qed.

End EngineFacts.

(** ** The codec on the store *)

Lemma rd_load (m : store) (s : slice) (i : nat) : rd m s i = load m s !! i.
Proof.
  unfold rd, load. destruct (m !! ptr s) as [buf|].
  - destruct (Nat.ltb_spec i (len s)).
    + by rewrite lookup_take_lt, lookup_drop.
    + by rewrite lookup_take_ge.
  - by destruct (i <? len s).
Qed.

Lemma load_ok_length (m : store) (s : slice) :
  slice_ok m s -> length (load m s) = len s.
Proof.
  intros (buf & Hb & Hl). unfold load. rewrite Hb.
  rewrite length_take, length_drop. lia.
Qed.

(** A write is not seen at any other place. *)
Lemma rd_wr_ne (m : store) (d s : slice) (j i : nat) (b : byte) :
  ptr d <> ptr s \/ off d + j <> off s + i ->
  rd (wr m d j b) s i = rd m s i.
Proof.
  intros H. unfold rd, wr. destruct (i <? len s); [|done].
  destruct (decide (ptr d = ptr s)) as [E|E].
  - rewrite E, list_lookup_alter_eq. destruct (m !! ptr s) as [buf|]; [|done].
    simpl. apply list_lookup_insert_ne. destruct H; [done|lia].
  - by rewrite list_lookup_alter_ne.
Qed.

(** A write inside the slice is read back. *)
Lemma rd_wr_eq (m : store) (d : slice) (j : nat) (b : byte) :
  slice_ok m d -> j < len d -> rd (wr m d j b) d j = Some b.
Proof.
  intros (buf & Hb & Hl) Hj. unfold rd, wr.
  apply Nat.ltb_lt in Hj as Hj'. rewrite Hj'.
  rewrite list_lookup_alter_eq, Hb. simpl.
  apply list_lookup_insert_eq. lia.
Qed.

(** Writes keep every slice inside its buffer. *)
Lemma slice_ok_wr (m : store) (d s : slice) (j : nat) (b : byte) :
  slice_ok m s -> slice_ok (wr m d j b) s.
Proof.
  intros (buf & Hb & Hl). unfold slice_ok, wr.
  destruct (decide (ptr d = ptr s)) as [E|E].
  - rewrite E, list_lookup_alter_eq, Hb. simpl.
    eexists. split; [done|]. by rewrite length_insert.
  - rewrite list_lookup_alter_ne by done. eauto.
Qed.

Lemma wr_length (m : store) (d : slice) (j : nat) (b : byte) :
  length (wr m d j b) = length m.
Proof. unfold wr. apply length_alter. Qed.

(** The text splits into full quanta and a tail. *)
Lemma DecodeString_split (l : bytes) :
  B64.DecodeString l =
  o ← quanta_value (length l / 4) l;
  t ← tail_value (drop (4 * (length l / 4)) l);
  Some (o ++ t).
Proof.
  induction l as [l IH] using (induction_ltof1 _ (@length byte)).
  unfold ltof in IH.
  destruct l as [|a [|b [|c [|d rest]]]]; try reflexivity.
  - simpl. destruct (B64.dec2 a b); reflexivity.
  - simpl. destruct (B64.dec3 a b c) as [[x y]|]; reflexivity.
  - replace (length (a :: b :: c :: d :: rest) / 4) with (S (length rest / 4)).
    2:{ cbn [length].
        replace (S (S (S (S (length rest))))) with (length rest + 1 * 4) by lia.
        rewrite Nat.div_add by lia. lia. }
    cbn [B64.DecodeString quanta_value]. rewrite IH by (simpl; lia).
    replace (4 * S (length rest / 4)) with (4 + 4 * (length rest / 4)) by lia.
    rewrite <- drop_drop.
    change (drop 4 (a :: b :: c :: d :: rest)) with rest.
    generalize (length rest / 4). intros q.
    destruct (B64.dec4 a b c d) as [[[x y] z]|]; [|reflexivity].
    cbn [mbind option_bind].
    destruct (quanta_value q rest) as [o|]; [|reflexivity].
    cbn [mbind option_bind].
    destruct (tail_value (drop (4 * q) rest)) as [t|]; reflexivity.
Qed.

(** Three consecutive writes. *)
Lemma wr3_spec (m : store) (d : slice) (p : nat) (x y z : byte) :
  slice_ok m d -> p + 2 < len d ->
  let m3 := wr (wr (wr m d p x) d (p + 1) y) d (p + 2) z in
  rd m3 d p = Some x /\ rd m3 d (p + 1) = Some y /\ rd m3 d (p + 2) = Some z /\
  (forall s i,
     ptr s <> ptr d \/ off s + i < off d + p \/ off d + p + 3 <= off s + i ->
     rd m3 s i = rd m s i) /\
  (forall s, slice_ok m s -> slice_ok m3 s) /\
  length m3 = length m.
Proof.
  intros Hok Hp m3. subst m3. split_and!.
  - rewrite !rd_wr_ne by (right; lia). apply rd_wr_eq; [done|lia].
  - rewrite rd_wr_ne by (right; lia).
    apply rd_wr_eq; [by apply slice_ok_wr|lia].
  - apply rd_wr_eq; [by do 2 apply slice_ok_wr|lia].
  - intros s i H. rewrite !rd_wr_ne; [done|..];
      (destruct H as [H|H]; [left; congruence|right; lia]).
  - intros s Hs. by do 3 apply slice_ok_wr.
  - by rewrite !wr_length.
Qed.

Lemma drop_load_eq (m m' : store) (s : slice) (n : nat) :
  (forall i, n <= i -> rd m' s i = rd m s i) ->
  drop n (load m' s) = drop n (load m s).
Proof.
  intros H. apply list_eq. intros i.
  rewrite !lookup_drop, <- !rd_load. apply H. lia.
Qed.

(** The full quanta: with [dst] clear of the unread part of [src], the loop
    writes the value of the quanta and touches nothing else. *)
Lemma decQuanta_spec (dst src : slice) :
  no_clobber dst src ->
  forall (q k : nat) (m : store),
    slice_ok m src -> slice_ok m dst ->
    4 * (k + q) <= len src -> 3 * (k + q) <= len dst ->
    match quanta_value q (drop (4 * k) (load m src)) with
    | Some out =>
        exists m',
          decQuanta q k m dst src = (m', true) /\
          length out = 3 * q /\
          (forall j, j < 3 * q -> rd m' dst (3 * k + j) = out !! j) /\
          (forall s i,
             ptr s <> ptr dst \/ off s + i < off dst + 3 * k \/
             off dst + 3 * (k + q) <= off s + i ->
             rd m' s i = rd m s i) /\
          (forall s, slice_ok m s -> slice_ok m' s) /\
          length m' = length m
    | None => exists m', decQuanta q k m dst src = (m', false)
    end.
Proof.
  intros Hnc. induction q as [|q IH]; intros k m Hsrc Hdst Hls Hld.
  - simpl. exists m. split_and!; try done. intros j Hj. lia.
  - pose proof (load_ok_length m src Hsrc) as Hlen.
    assert (Hl4 : 4 <= length (drop (4 * k) (load m src)))
      by (rewrite length_drop; lia).
    assert (Hrd : forall c, rd m src (4 * k + c) = drop (4 * k) (load m src) !! c)
      by (intros c; by rewrite rd_load, lookup_drop).
    destruct (drop (4 * k) (load m src)) as [|a [|b [|c [|d rest]]]] eqn:E;
      simpl in Hl4; try lia.
    assert (R0 : rd m src (4 * k) = Some a)
      by (rewrite <- (Nat.add_0_r (4 * k)), Hrd; reflexivity).
    assert (R1 : rd m src (4 * k + 1) = Some b) by (rewrite Hrd; reflexivity).
    assert (R2 : rd m src (4 * k + 2) = Some c) by (rewrite Hrd; reflexivity).
    assert (R3 : rd m src (4 * k + 3) = Some d) by (rewrite Hrd; reflexivity).
    cbn [decQuanta quanta_value]. rewrite R0, R1, R2, R3.
    destruct (B64.dec4 a b c d) as [[[x y] z]|]; [|by exists m].
    cbn [mbind option_bind].
    destruct (wr3_spec m dst (3 * k) x y z Hdst ltac:(lia))
      as (W0 & W1 & W2 & F3 & O3 & L3).
    set (m3 := wr (wr (wr m dst (3 * k) x) dst (3 * k + 1) y) dst (3 * k + 2) z) in *.
    specialize (IH (S k) m3 (O3 _ Hsrc) (O3 _ Hdst) ltac:(lia) ltac:(lia)).
    assert (Erest : drop (4 * S k) (load m3 src) = rest).
    { rewrite (drop_load_eq m m3 src).
      - replace (4 * S k) with (4 * k + 4) by lia.
        by rewrite <- drop_drop, E.
      - intros i Hi. apply F3. destruct Hnc as [Hn|Hn]; [left; congruence|].
        destruct (decide (ptr src = ptr dst)); [right; right; lia|by left]. }
    rewrite Erest in IH.
    destruct (quanta_value q rest) as [out|]; cbn [mbind option_bind].
    + destruct IH as (m' & -> & Hlo & W & F & O & L).
      exists m'. split_and!.
      * done.
      * simpl. lia.
      * intros j Hj.
        destruct j as [|[|[|j]]]; cbn [lookup list_lookup].
        -- rewrite Nat.add_0_r, F by (right; left; lia). done.
        -- rewrite F by (right; left; lia). done.
        -- rewrite F by (right; left; lia). done.
        -- replace (3 * k + S (S (S j))) with (3 * S k + j) by lia.
           apply W. lia.
      * intros s i H. rewrite F, F3; [done|..];
          (destruct H as [H|[H|H]]; [by left|right; left; lia|right; right; lia]).
      * intros s Hs. by apply O, O3.
      * by rewrite L, L3.
    + destruct IH as (m' & ->). by exists m'.
Qed.

(** The tail: at most three characters are left after [k] quanta. *)
Lemma decTail_spec (dst src : slice) (k : nat) (m : store) :
  slice_ok m src -> slice_ok m dst ->
  4 * k <= len src -> len src < 4 * k + 4 ->
  3 * k + (len src - 4 * k) <= len dst + 1 ->
  match tail_value (drop (4 * k) (load m src)) with
  | Some t =>
      exists m',
        decTail k m dst src = (m', Some (3 * k + length t)) /\
        (forall j, j < length t -> rd m' dst (3 * k + j) = t !! j) /\
        (forall s i,
           ptr s <> ptr dst \/ off s + i < off dst + 3 * k \/
           off dst + 3 * k + length t <= off s + i ->
           rd m' s i = rd m s i) /\
        length m' = length m
  | None => exists m', decTail k m dst src = (m', None)
  end.
Proof.
  intros Hsrc Hdst Hlo Hhi Hroom.
  pose proof (load_ok_length m src Hsrc) as Hlen.
  assert (Hl : length (drop (4 * k) (load m src)) = len src - 4 * k)
    by (rewrite length_drop; lia).
  assert (Hrd : forall c, rd m src (4 * k + c) = drop (4 * k) (load m src) !! c)
    by (intros c; by rewrite rd_load, lookup_drop).
  unfold decTail.
  destruct (drop (4 * k) (load m src)) as [|a [|b [|c [|d rest]]]] eqn:E;
    cbn [length] in Hl; rewrite <- Hl; cbn [tail_value]; try lia.
  - exists m. split_and!; [by rewrite Nat.add_0_r|intros j Hj; simpl in Hj; lia|done|done].
  - by exists m.
  - assert (R0 : rd m src (4 * k) = Some a)
      by (rewrite <- (Nat.add_0_r (4 * k)), Hrd; reflexivity).
    assert (R1 : rd m src (4 * k + 1) = Some b) by (rewrite Hrd; reflexivity).
    rewrite R0, R1.
    destruct (B64.dec2 a b) as [x|]; cbn [mbind option_bind]; [|by exists m].
    eexists. split_and!.
    + done.
    + intros [|j] Hj; simpl in Hj; [|lia].
      rewrite Nat.add_0_r. apply rd_wr_eq; [done|lia].
    + intros s i H. apply rd_wr_ne.
      destruct H as [H|H]; [left; congruence|right; simpl in H; lia].
    + apply wr_length.
  - assert (R0 : rd m src (4 * k) = Some a)
      by (rewrite <- (Nat.add_0_r (4 * k)), Hrd; reflexivity).
    assert (R1 : rd m src (4 * k + 1) = Some b) by (rewrite Hrd; reflexivity).
    assert (R2 : rd m src (4 * k + 2) = Some c) by (rewrite Hrd; reflexivity).
    rewrite R0, R1, R2.
    destruct (B64.dec3 a b c) as [[x y]|]; cbn [mbind option_bind]; [|by exists m].
    eexists. split_and!.
    + done.
    + intros [|[|j]] Hj; simpl in Hj; [| |lia].
      * rewrite Nat.add_0_r, rd_wr_ne by (right; lia).
        apply rd_wr_eq; [done|lia].
      * apply rd_wr_eq; [by apply slice_ok_wr|lia].
    + intros s i H. rewrite !rd_wr_ne; [done|..];
        (destruct H as [H|H]; [left; congruence|right; simpl in H; lia]).
    + by rewrite !wr_length.
Qed.

(** [Decode(dst, src)] leaves the value of the text in [dst[:n]], wherever
    [dst] is as long as [DecodedLen] says and does not clobber [src]; it
    writes to no other buffer. *)
Lemma Decode_spec (dst src : slice) (m : store) :
  no_clobber dst src ->
  slice_ok m src -> slice_ok m dst ->
  B64.DecodedLen (len src) <= len dst ->
  match B64.DecodeString (load m src) with
  | Some out =>
      exists m',
        Decode m dst src = (m', (length out, None)) /\
        load m' (reslice dst 0 (length out)) = out /\
        (forall s i, ptr s <> ptr dst -> rd m' s i = rd m s i) /\
        length m' = length m
  | None => exists m', Decode m dst src = (m', (0, Some ErrWrongData))
  end.
Proof.
  intros Hnc Hsrc Hdst Hroom.
  pose proof (load_ok_length m src Hsrc) as Hlen.
  rewrite DecodeString_split, Hlen. unfold Decode.
  set (q := len src / 4).
  assert (Hq1 : 4 * q <= len src) by (apply Nat.Div0.mul_div_le; lia).
  assert (Hq4 : 3 * q <= len dst).
  { unfold B64.DecodedLen in Hroom.
    assert (3 * q <= len src * 6 / 8); [|lia].
    apply Nat.div_le_lower_bound; lia. }
  assert (Hq2 : len src < 4 * q + 4).
  { pose proof (Nat.mul_succ_div_gt (len src) 4 ltac:(lia)). fold q in H. lia. }
  assert (Hq3 : 3 * q + (len src - 4 * q) <= len dst + 1).
  { unfold B64.DecodedLen in Hroom.
    assert (3 * q + (len src - 4 * q) - 1 <= len src * 6 / 8); [|lia].
    apply Nat.div_le_lower_bound; lia. }
  pose proof (decQuanta_spec dst src Hnc q 0 m Hsrc Hdst ltac:(lia) ltac:(lia)) as HQ.
  rewrite Nat.mul_0_r, drop_0 in HQ.
  destruct (quanta_value q (load m src)) as [o|]; cbn [mbind option_bind].
  2:{ destruct HQ as (m1 & ->). by exists m1. }
  destruct HQ as (m1 & -> & Hlo & W & F & O & L).
  pose proof (decTail_spec dst src q m1 (O _ Hsrc) (O _ Hdst) Hq1 Hq2 Hq3) as HT.
  rewrite (drop_load_eq m m1 src) in HT.
  2:{ intros i Hi. apply F. destruct Hnc as [Hn|Hn]; [left; congruence|].
      destruct (decide (ptr src = ptr dst)); [right; right; lia|by left]. }
  destruct (tail_value (drop (4 * q) (load m src))) as [t|]; cbn [mbind option_bind].
  2:{ destruct HT as (m2 & ->). by exists m2. }
  destruct HT as (m2 & -> & WT & FT & LT).
  exists m2. rewrite length_app, Hlo. split_and!.
  - done.
  - assert (Hn : 3 * q + length t <= len dst).
    { destruct t as [|x [|y t]]; simpl in *; [lia| |].
      - specialize (WT 0 ltac:(lia)). rewrite rd_load in WT.
        apply lookup_lt_Some in WT. pose proof (load_length m2 dst). lia.
      - specialize (WT (S (length t)) ltac:(lia)). rewrite rd_load in WT.
        assert (is_Some ((x :: y :: t) !! S (length t))) as [? Hs]
          by (apply lookup_lt_is_Some; simpl; lia).
        rewrite Hs in WT.
        apply lookup_lt_Some in WT. pose proof (load_length m2 dst). lia. }
    rewrite load_prefix by done.
    apply list_eq. intros i.
    destruct (decide (i < 3 * q)) as [Hi|Hi].
    + rewrite lookup_take_lt by lia.
      rewrite <- rd_load, FT by (right; left; lia).
      rewrite <- (Nat.add_0_l i), W by lia.
      rewrite lookup_app_l by lia. done.
    + destruct (decide (i < 3 * q + length t)) as [Hi'|Hi'].
      * rewrite lookup_take_lt by lia.
        rewrite <- rd_load.
        replace i with (3 * q + (i - 3 * q)) at 1 by lia.
        rewrite WT by lia.
        rewrite lookup_app_r by lia. f_equal. lia.
      * rewrite lookup_take_ge by lia.
        symmetry. apply lookup_ge_None_2. rewrite length_app. lia.
  - intros s i Hs. rewrite FT, F; [done|by left|by left].
  - by rewrite LT, L.
Qed.

Lemma load_app_l (m : store) (extra : list bytes) (s : slice) :
  slice_ok m s -> load (m ++ extra) s = load m s.
Proof.
  intros (buf & Hb & _). unfold load.
  by rewrite (lookup_app_l_Some _ _ _ _ Hb), Hb.
Qed.

Lemma load_frame (m m' : store) (s : slice) :
  (forall i, rd m' s i = rd m s i) -> load m' s = load m s.
Proof.
  intros H. apply list_eq. intros i. by rewrite <- !rd_load.
Qed.

(** [B64Decode] with [reuse = false]: the value is in a new buffer and the
    input is as it was. *)
Lemma B64Decode_fresh (b64 : slice) (st : state) :
  slice_ok (mem st) b64 ->
  match B64.DecodeString (load (mem st) b64) with
  | Some out =>
      exists sl st',
        B64Decode b64 false st = ((sl, None), st') /\
        load (mem st') sl = out /\
        ptr sl = length (mem st) /\
        load (mem st') b64 = load (mem st) b64
  | None =>
      exists st', B64Decode b64 false st = ((nil_slice, Some ErrWrongData), st')
  end.
Proof.
  intros Hok.
  unfold B64Decode, bind, emit, with_mem, make. cbn [negb mem clock trace].
  set (m := mem st) in *.
  set (m0 := m ++ [replicate (B64.DecodedLen (len b64)) x00]).
  set (out := Slice (length m) 0 (B64.DecodedLen (len b64))).
  assert (Hok0 : slice_ok m0 b64).
  { destruct Hok as (buf & Hb & Hl). exists buf. split; [|done].
    by apply lookup_app_l_Some. }
  assert (Hout : slice_ok m0 out).
  { exists (replicate (B64.DecodedLen (len b64)) x00). split.
    - subst m0 out. simpl. by apply list_lookup_middle.
    - rewrite length_replicate. simpl. lia. }
  assert (Hne : ptr out <> ptr b64).
  { destruct Hok as (buf & Hb & _). apply lookup_lt_Some in Hb. simpl. lia. }
  pose proof (Decode_spec out b64 m0 (or_introl Hne) Hok0 Hout ltac:(simpl; lia)) as HD.
  replace (load m0 b64) with (load m b64) in HD by (symmetry; by apply load_app_l).
  destruct (B64.DecodeString (load m b64)) as [o|].
  - destruct HD as (m' & -> & Hl & F & L). simpl.
    eexists _, _. split_and!; try done; simpl.
    rewrite (load_frame m0 m' b64) by (intros i; apply F; simpl in *; congruence).
    by apply load_app_l.
  - destruct HD as (m' & ->). simpl. eauto.
Qed.

(** [B64Decode] with [reuse = true]: the value is in the input buffer, at
    the place of the input. *)
Lemma B64Decode_in_place (b64 : slice) (st : state) :
  slice_ok (mem st) b64 ->
  match B64.DecodeString (load (mem st) b64) with
  | Some out =>
      exists st',
        B64Decode b64 true st = ((reslice b64 0 (length out), None), st') /\
        load (mem st') (reslice b64 0 (length out)) = out /\
        length (mem st') = length (mem st)
  | None =>
      exists st', B64Decode b64 true st = ((nil_slice, Some ErrWrongData), st')
  end.
Proof.
  intros Hok.
  unfold B64Decode, bind, emit, with_mem. cbn [negb mem clock trace].
  assert (Hroom : B64.DecodedLen (len b64) <= len b64).
  { unfold B64.DecodedLen. apply Nat.Div0.div_le_upper_bound. lia. }
  pose proof (Decode_spec b64 b64 (mem st) (or_intror (le_n _)) Hok Hok Hroom) as HD.
  destruct (B64.DecodeString (load (mem st) b64)) as [o|].
  - destruct HD as (m' & -> & Hl & F & L). simpl. eauto.
  - destruct HD as (m' & ->). simpl. eauto.
Qed.

(** C8: from the same state (each run on its own copy of the buffer),
    [B64Decode] with [reuse = false] and with [reuse = true] fail on the
    same inputs, those that are not URL-safe unpadded base64, and on the
    others return slices that show the same bytes, the decoded value; the
    first in a new buffer with the input untouched, the second in the
    input buffer. *)
Theorem C8_B64Decode_reuse_equivalent (b64 : slice) (st : state) :
  slice_ok (mem st) b64 ->
  let r1 := B64Decode b64 false st in
  let r2 := B64Decode b64 true st in
  (snd (fst r1) = None <-> snd (fst r2) = None) /\
  (snd (fst r1) = None <-> is_Some (B64.DecodeString (load (mem st) b64))) /\
  (snd (fst r1) = None ->
     load (mem (snd r1)) (fst (fst r1)) = load (mem (snd r2)) (fst (fst r2)) /\
     B64.DecodeString (load (mem st) b64) = Some (load (mem (snd r1)) (fst (fst r1))) /\
     ptr (fst (fst r1)) = length (mem st) /\
     load (mem (snd r1)) b64 = load (mem st) b64 /\
     ptr (fst (fst r2)) = ptr b64 /\ off (fst (fst r2)) = off b64).
Proof.
  intros Hok r1 r2.
  pose proof (B64Decode_fresh b64 st Hok) as H1.
  pose proof (B64Decode_in_place b64 st Hok) as H2.
  subst r1 r2.
  destruct (B64.DecodeString (load (mem st) b64)) as [out|].
  - destruct H1 as (sl & st1 & -> & Hl1 & Hp & Hin).
    destruct H2 as (st2 & -> & Hl2 & _). simpl.
    split_and!; [done|split; [eauto|done]|].
    intros _. rewrite Hl1, Hl2. split_and!; done.
  - destruct H1 as (st1 & ->). destruct H2 as (st2 & ->). simpl.
    split_and!; [done| |done].
    split; [done|]. intros [? ?]. done.
Qed.

(** ** The statements at concrete inputs *)

(** The validation of claims without [exp], at a time well after the epoch:
    no error. *)
Lemma C2_absent_exp_passes :
  ExpiresAt (Registered (toy_claims None)) = None /\
  fst (Valid (toy_claims None) (State [] 1700000000 [])) = None.
Proof. split; reflexivity. Qed.

Lemma C2_expiry_validation_witness :
  snd (fst (AccessClaimsFromBase64 (P := toy) (Slice 0 4 12) false
              (store_at token_zero 1700000000))) <> None.
Proof.
  pose proof (C2_expiry_validation (P := toy) (Slice 0 4 12) false
                (store_at token_zero 1700000000) (Slice 1 0 9)
                (State [bs token_zero; toy_exp_member ++ bs "0}"] 1700000000
                       [EvB64Decode (Slice 0 4 12) false])
                (toy_claims (Some 0%Z)) eq_refl eq_refl) as H.
  cbv zeta in H. destruct H as (_ & _ & _ & H & _).
  apply H; [reflexivity | vm_compute; discriminate].
Defined.

Lemma C3_three_parts_witness :
  snd (SplitThreeParts (bs "ab.c")) = Some ErrThreeParts /\
  (exists p1 p2 : nat,
     SplitThreeParts (bs "a.b.c") = (Z.of_nat p1, Z.of_nat p2, None) /\ p1 < p2) /\
  claims (P := toy) (VerTok (toy_tokenizer true)) (whole "ab.c") (store_of "ab.c") =
  ((None, Some ErrThreeParts), store_of "ab.c").
Proof.
  split; [|split].
  - apply (proj1 (C3_three_parts (P := toy) (bs "ab.c"))). vm_compute. lia.
  - destruct (proj1 (proj2 (C3_three_parts (P := toy) (bs "a.b.c"))))
      as (p1 & p2 & H1 & H2 & _); [vm_compute; lia|].
    exists p1, p2. split; assumption.
  - apply (proj2 (proj2 (C3_three_parts (P := toy) (bs "ab.c"))));
      [reflexivity | vm_compute; lia].
Defined.

Lemma C4_key_length_at_construction_witness :
  (exists e, NewHS256 "abcd" false = (None, Some e)) /\
  (exists v, NewHS256 key_hex_32 false = (Some v, None) /\
             length (key (hs256 v)) = 32).
Proof.
  pose proof (C4_key_length_at_construction (P := toy) "abcd" false) as Hbad.
  pose proof (C4_key_length_at_construction (P := toy) key_hex_32 false) as Hgood.
  split.
  - apply (proj1 Hbad). reflexivity.
  - destruct Hgood as (_ & _ & _ & _ & _ & _ & _ & H & _).
    eexists. split; [reflexivity|]. eapply H. reflexivity.
Defined.

Lemma C5_NewHMAC_resolution_witness :
  exists k,
    NewHMAC key_hex_32 true =
    (Val (TokHS256 {| hs256 := {| key := k; bk_base := {| reuse := true |} |} |}), None).
Proof.
  destruct (C5_NewHMAC_resolution (P := toy) key_hex_32 true eq_refl) as [_ H].
  eexists. rewrite H. reflexivity.
Defined.

Lemma C6_unsupported_and_unknown_witness :
  NewVerifier (P := toy) "rs256:abc" false =
    Returns (Nil, Some (UnsupportedAlgorithm (P := toy) "RS256")) /\
  NewVerifier (P := toy) "foo:abc" false =
    Returns (Nil, Some (UnknownAlgorithm "foo" "foo:abc")).
Proof.
  split.
  - apply (proj1 (C6_unsupported_and_unknown (P := toy) "rs256" "abc" false eq_refl)).
    vm_compute. tauto.
  - apply (proj1 (proj2 (C6_unsupported_and_unknown (P := toy) "foo" "abc" false eq_refl))).
    vm_compute. intuition discriminate.
Defined.

Lemma C7_signature_before_payload_witness :
  claims (P := toy) (VerTok (toy_tokenizer false)) (whole "h.p.s") (store_of "h.p.s") =
  ((None, Some ErrJWTSignature),
   State [bs "h.p.s"] 0 [EvVerify (Slice 0 0 3) (Slice 0 4 1)]).
Proof.
  pose proof (C7_signature_before_payload (P := toy) (VerTok (toy_tokenizer false))
                (whole "h.p.s") (store_of "h.p.s") 1 3 eq_refl) as H.
  cbv zeta in H. destruct H as (_ & _ & _ & H).
  destruct (H eq_refl) as [H' _]. exact H'.
Defined.

Lemma C8_B64Decode_reuse_equivalent_witness :
  load (mem (snd (B64Decode (whole "Zm9vYmFy") false (store_of "Zm9vYmFy"))))
       (fst (fst (B64Decode (whole "Zm9vYmFy") false (store_of "Zm9vYmFy")))) =
  load (mem (snd (B64Decode (whole "Zm9vYmFy") true (store_of "Zm9vYmFy"))))
       (fst (fst (B64Decode (whole "Zm9vYmFy") true (store_of "Zm9vYmFy")))).
Proof.
  assert (Hok : slice_ok (mem (store_of "Zm9vYmFy")) (whole "Zm9vYmFy")).
  { exists (bs "Zm9vYmFy"). split; [reflexivity | vm_compute; lia]. }
  pose proof (C8_B64Decode_reuse_equivalent (whole "Zm9vYmFy") (store_of "Zm9vYmFy") Hok) as H.
  cbv zeta in H. destruct H as (_ & _ & H).
  destruct (H eq_refl) as [H' _]. exact H'.
Defined.

(** * Further properties of the codec and of the pipeline *)

(** ** Where [Decode] writes *)

Lemma rd_oob (m : store) (s : slice) (i : nat) : len s <= i -> rd m s i = None.
Proof.
  intros H. unfold rd. apply Nat.ltb_ge in H. by rewrite H.
Qed.

Lemma wr3_frame (m : store) (d s : slice) (p i : nat) (x y z : byte) :
  ptr s <> ptr d \/ off s + i < off d + p \/ off d + p + 3 <= off s + i ->
  rd (wr (wr (wr m d p x) d (p + 1) y) d (p + 2) z) s i = rd m s i.
Proof.
  intros H. rewrite !rd_wr_ne; [done|..];
    (destruct H as [H|H]; [left; congruence|right; lia]).
Qed.

(** The full quanta write only [dst[3k .. 3(k+q))], whether they decode or
    not. *)
Lemma decQuanta_frame (dst src s : slice) (i q : nat) :
  forall (k : nat) (m : store),
    ptr s <> ptr dst \/ off s + i < off dst + 3 * k \/
    off dst + 3 * (k + q) <= off s + i ->
    rd (fst (decQuanta q k m dst src)) s i = rd m s i.
Proof.
  induction q as [|q IH]; intros k m H; [done|].
  cbn [decQuanta].
  destruct (rd m src (4 * k)) as [a|]; [|done].
  destruct (rd m src (4 * k + 1)) as [b|]; [|done].
  destruct (rd m src (4 * k + 2)) as [c|]; [|done].
  destruct (rd m src (4 * k + 3)) as [d|]; [|done].
  destruct (B64.dec4 a b c d) as [[[x y] z]|]; [|done].
  rewrite IH by (destruct H as [H|[H|H]]; [by left|right; left; lia|right; right; lia]).
  apply wr3_frame. destruct H as [H|[H|H]]; [by left|right; left; lia|right; right; lia].
Qed.

Lemma decQuanta_slice_ok (dst src s : slice) (q : nat) :
  forall (k : nat) (m : store),
    slice_ok m s -> slice_ok (fst (decQuanta q k m dst src)) s.
Proof.
  induction q as [|q IH]; intros k m H; [done|].
  cbn [decQuanta].
  destruct (rd m src (4 * k)) as [a|]; [|done].
  destruct (rd m src (4 * k + 1)) as [b|]; [|done].
  destruct (rd m src (4 * k + 2)) as [c|]; [|done].
  destruct (rd m src (4 * k + 3)) as [d|]; [|done].
  destruct (B64.dec4 a b c d) as [[[x y] z]|]; [|done].
  apply IH. by do 3 apply slice_ok_wr.
Qed.

Lemma decTail_frame (dst src s : slice) (i k : nat) (m : store) :
  ptr s <> ptr dst \/ off s + i < off dst + 3 * k \/
  off dst + 3 * k + tail_bytes (len src - 4 * k) <= off s + i ->
  rd (fst (decTail k m dst src)) s i = rd m s i.
Proof.
  intros H. unfold decTail.
  destruct (len src - 4 * k) as [|[|[|r]]]; cbn [tail_bytes] in H; try done.
  - destruct (rd m src (4 * k)) as [a|]; [|done].
    destruct (rd m src (4 * k + 1)) as [b|]; [|done].
    destruct (B64.dec2 a b) as [x|]; [|done]. simpl.
    apply rd_wr_ne. destruct H as [H|H]; [left; congruence|right; lia].
  - destruct (rd m src (4 * k)) as [a|]; [|done].
    destruct (rd m src (4 * k + 1)) as [b|]; [|done].
    destruct (rd m src (4 * k + 2)) as [c|]; [|done].
    destruct (B64.dec3 a b c) as [[x y]|]; [|done]. simpl.
    rewrite !rd_wr_ne; [done|..];
      (destruct H as [H|H]; [left; congruence|right; lia]).
Qed.

Lemma decTail_slice_ok (dst src s : slice) (k : nat) (m : store) :
  slice_ok m s -> slice_ok (fst (decTail k m dst src)) s.
Proof.
  intros H. unfold decTail.
  destruct (len src - 4 * k) as [|[|[|r]]]; try done.
  - destruct (rd m src (4 * k)) as [a|]; [|done].
    destruct (rd m src (4 * k + 1)) as [b|]; [|done].
    destruct (B64.dec2 a b) as [x|]; [|done]. simpl. by apply slice_ok_wr.
  - destruct (rd m src (4 * k)) as [a|]; [|done].
    destruct (rd m src (4 * k + 1)) as [b|]; [|done].
    destruct (rd m src (4 * k + 2)) as [c|]; [|done].
    destruct (B64.dec3 a b c) as [[x y]|]; [|done]. simpl.
    by do 2 apply slice_ok_wr.
Qed.

(** [DecodedLen] of a length, by quanta and tail. *)
Lemma DecodedLen_split (n : nat) :
  B64.DecodedLen n = 3 * (n / 4) + n mod 4 * 6 / 8.
Proof.
  unfold B64.DecodedLen.
  rewrite (Nat.div_mod_eq n 4) at 1.
  replace ((4 * (n / 4) + n mod 4) * 6) with (n mod 4 * 6 + 3 * (n / 4) * 8) by lia.
  rewrite Nat.div_add by lia. lia.
Qed.

Lemma tail_bytes_le (n : nat) :
  3 * (n / 4) + tail_bytes (n - 4 * (n / 4)) <= B64.DecodedLen n.
Proof.
  rewrite DecodedLen_split.
  replace (n - 4 * (n / 4)) with (n mod 4) by (apply Nat.Div0.mod_eq).
  pose proof (Nat.mod_upper_bound n 4 ltac:(lia)) as Hr.
  destruct (n mod 4) as [|[|[|[|r]]]]; simpl; lia.
Qed.

(** [Decode(dst, src)] writes only [dst[0 .. DecodedLen(len(src)))], whether
    it succeeds or not. *)
Lemma Decode_frame (m : store) (dst src s : slice) (i : nat) :
  ptr s <> ptr dst \/ off s + i < off dst \/
  off dst + B64.DecodedLen (len src) <= off s + i ->
  rd (fst (Decode m dst src)) s i = rd m s i.
Proof.
  intros H. unfold Decode.
  pose proof (tail_bytes_le (len src)) as Hb.
  pose proof (decQuanta_frame dst src s i (len src / 4) 0 m) as HQ.
  destruct (decQuanta (len src / 4) 0 m dst src) as [m1 ok]. cbn [fst] in HQ.
  rewrite <- HQ by (destruct H as [H|[H|H]]; [by left|right; left; lia|right; right; lia]).
  destruct ok; [|done].
  pose proof (decTail_frame dst src s i (len src / 4) m1) as HT.
  destruct (decTail (len src / 4) m1 dst src) as [m2 [n|]]; cbn [fst] in *;
    apply HT; (destruct H as [H|[H|H]]; [by left|right; left; lia|right; right; lia]).
Qed.

Lemma Decode_slice_ok (m : store) (dst src s : slice) :
  slice_ok m s -> slice_ok (fst (Decode m dst src)) s.
Proof.
  intros H. unfold Decode.
  pose proof (decQuanta_slice_ok dst src s (len src / 4) 0 m H) as HQ.
  destruct (decQuanta (len src / 4) 0 m dst src) as [m1 ok]. cbn [fst] in HQ.
  destruct ok; [|done].
  pose proof (decTail_slice_ok dst src s (len src / 4) m1 HQ) as HT.
  destruct (decTail (len src / 4) m1 dst src) as [m2 [n|]]; done.
Qed.

(** ** Lengths *)

Lemma DecodedLen_add4 (n : nat) : B64.DecodedLen (4 + n) = 3 + B64.DecodedLen n.
Proof.
  unfold B64.DecodedLen.
  replace ((4 + n) * 6) with (n * 6 + 3 * 8) by lia.
  rewrite Nat.div_add by lia. lia.
Qed.

(** A decoded value has the length [DecodedLen] gives for its text. *)
Lemma length_DecodeString (l out : bytes) :
  B64.DecodeString l = Some out -> length out = B64.DecodedLen (length l).
Proof.
  revert out. induction l as [l IH] using (induction_ltof1 _ (@length byte)).
  unfold ltof in IH. intros out.
  destruct l as [|a [|b [|c [|d rest]]]]; cbn [B64.DecodeString].
  - by intros [= <-].
  - done.
  - destruct (B64.dec2 a b); [|done]. by intros [= <-].
  - destruct (B64.dec3 a b c) as [[x y]|]; [|done]. by intros [= <-].
  - destruct (B64.dec4 a b c d) as [[[x y] z]|]; [|done]. cbn [mbind option_bind].
    destruct (B64.DecodeString rest) as [r|] eqn:E; [|done].
    intros [= <-].
    change (length (a :: b :: c :: d :: rest)) with (4 + length rest).
    rewrite DecodedLen_add4, <- (IH rest ltac:(simpl; lia) r E). simpl. lia.
Qed.

Lemma slice_ok_reslice (m : store) (s : slice) (lo hi : nat) :
  slice_ok m s -> lo <= hi -> hi <= len s -> slice_ok m (reslice s lo hi).
Proof.
  intros (buf & Hb & Hl) H1 H2. exists buf. split; [done|]. simpl. lia.
Qed.

Lemma load_reslice (m : store) (s : slice) (lo hi : nat) :
  hi <= len s -> load m (reslice s lo hi) = take (hi - lo) (drop lo (load m s)).
Proof.
  intros H. unfold load, reslice. simpl.
  destruct (m !! ptr s) as [buf|]; [|by rewrite drop_nil, take_nil].
  rewrite skipn_firstn_comm, drop_drop, take_take. f_equal. lia.
Qed.

Lemma load_frame_in (m m' : store) (s : slice) :
  (forall i, i < len s -> rd m' s i = rd m s i) -> load m' s = load m s.
Proof.
  intros H. apply load_frame. intros i.
  destruct (decide (i < len s)); [by apply H|].
  rewrite !rd_oob by lia. done.
Qed.

(** ** [B64Decode] on any store *)

(** Both modes: the clock is not touched, slices stay inside their buffers,
    slices apart from the input show what they showed (all slices when
    [reuse] is off), and the result is the decoded value of the input or
    the decoder's error. *)
Lemma B64Decode_value (b64 : slice) (r : bool) (st : state) :
  slice_ok (mem st) b64 ->
  let res := B64Decode b64 r st in
  clock (snd res) = clock st /\
  (forall s, slice_ok (mem st) s -> slice_ok (mem (snd res)) s) /\
  (forall s, slice_ok (mem st) s -> apart s b64 ->
     load (mem (snd res)) s = load (mem st) s) /\
  (r = false -> forall s, slice_ok (mem st) s ->
     load (mem (snd res)) s = load (mem st) s) /\
  match B64.DecodeString (load (mem st) b64) with
  | Some out =>
      snd (fst res) = None /\
      load (mem (snd res)) (fst (fst res)) = out /\
      slice_ok (mem (snd res)) (fst (fst res))
  | None => snd (fst res) = Some ErrWrongData /\ fst (fst res) = nil_slice
  end.
Proof.
  intros Hok res. subst res.
  assert (Hroom : B64.DecodedLen (len b64) <= len b64).
  { unfold B64.DecodedLen. apply Nat.Div0.div_le_upper_bound. lia. }
  pose proof (load_ok_length (mem st) b64 Hok) as Hlen.
  unfold B64Decode, bind, emit, with_mem, make. cbn [mem clock trace].
  destruct r; cbn [negb].
  - (* in place *)
    pose proof (Decode_spec b64 b64 (mem st) (or_intror (le_n _)) Hok Hok Hroom) as HD.
    pose proof (fun s => Decode_slice_ok (mem st) b64 b64 s) as HO.
    pose proof (fun s i => Decode_frame (mem st) b64 b64 s i) as HF.
    destruct (Decode (mem st) b64 b64) as [m1 [n e]] eqn:ED. cbn [fst] in HO, HF.
    assert (Hfr : forall s, slice_ok (mem st) s -> apart s b64 ->
                            load m1 s = load (mem st) s).
    { intros s Hs Hap. apply load_frame_in. intros i Hi. apply HF.
      destruct Hap as [H|[H|H]]; [by left|right; left; lia|right; right; lia]. }
    destruct (B64.DecodeString (load (mem st) b64)) as [out|] eqn:EDS.
    + destruct HD as (m'' & [= -> -> ->] & Hl & _ & _).
      cbn [fst snd mem clock]. split_and!; try done.
      apply HO, slice_ok_reslice; [done|lia|].
      rewrite (length_DecodeString _ _ EDS), Hlen. done.
    + destruct HD as (m'' & [= -> -> ->]).
      cbn [fst snd mem clock]. split_and!; done.
  - (* a new buffer *)
    set (m := mem st) in *.
    set (m0 := m ++ [replicate (B64.DecodedLen (len b64)) x00]).
    set (out := Slice (length m) 0 (B64.DecodedLen (len b64))).
    assert (Hup : forall s, slice_ok m s -> slice_ok m0 s /\ ptr s <> ptr out).
    { intros s (buf & Hb & Hl). split.
      - exists buf. split; [|done]. by apply lookup_app_l_Some.
      - apply lookup_lt_Some in Hb. simpl. lia. }
    assert (Hout : slice_ok m0 out).
    { exists (replicate (B64.DecodedLen (len b64)) x00). split.
      - subst m0 out. simpl. by apply list_lookup_middle.
      - rewrite length_replicate. simpl. lia. }
    destruct (Hup _ Hok) as [Hok0 Hne].
    pose proof (Decode_spec out b64 m0 (or_introl (not_eq_sym Hne)) Hok0 Hout
                  ltac:(simpl; lia)) as HD.
    replace (load m0 b64) with (load m b64) in HD by (symmetry; by apply load_app_l).
    pose proof (fun s => Decode_slice_ok m0 out b64 s) as HO.
    pose proof (fun s i => Decode_frame m0 out b64 s i) as HF.
    destruct (Decode m0 out b64) as [m1 [n e]] eqn:ED. cbn [fst] in HO, HF.
    assert (Hfr : forall s, slice_ok m s -> load m1 s = load m s).
    { intros s Hs. destruct (Hup _ Hs) as [Hs0 Hn].
      rewrite <- (load_app_l m [replicate (B64.DecodedLen (len b64)) x00] s Hs).
      apply load_frame. intros i. apply HF. by left. }
    destruct (B64.DecodeString (load m b64)) as [o|] eqn:EDS.
    + destruct HD as (m'' & [= -> -> ->] & Hl & _ & _).
      cbn [fst snd mem clock]. split_and!; try done.
      * intros s Hs. apply HO. by apply Hup.
      * intros s Hs _. by apply Hfr.
      * apply HO, slice_ok_reslice; [done|lia|].
        rewrite (length_DecodeString _ _ EDS), Hlen. done.
    + destruct HD as (m'' & [= -> -> ->]).
      cbn [fst snd mem clock]. split_and!; try done.
      * intros s Hs. apply HO. by apply Hup.
      * intros s Hs _. by apply Hfr.
Qed.

Section PipelineFacts.

Context {P : Primitives}.

(** ** The pipeline on byte strings *)

Lemma apart_sym (s d : slice) : apart s d -> apart d s.
Proof. unfold apart. intros [H|[H|H]]; [left; congruence|right; right; lia|right; left; lia]. Qed.

(** [Verify] computes [verify_value] of the bytes of its two slices, when
    these share no byte; it leaves the clock and every slice apart from the
    signature as they were. *)
Lemma Verify_value (v : Verifier) (hp sg : slice) (st : state) :
  slice_ok (mem st) hp -> slice_ok (mem st) sg -> apart hp sg ->
  let res := Verify v hp sg st in
  fst res = verify_value v (load (mem st) hp) (load (mem st) sg) /\
  clock (snd res) = clock st /\
  (forall s, slice_ok (mem st) s -> slice_ok (mem (snd res)) s) /\
  (forall s, slice_ok (mem st) s -> apart s sg ->
     load (mem (snd res)) s = load (mem st) s) /\
  (Reuse v = false -> forall s, slice_ok (mem st) s ->
     load (mem (snd res)) s = load (mem st) s).
Proof.
  intros Hhp Hsg Hap res. subst res.
  destruct v as [t|x|x|x|x]; [rewrite Verify_HMAC; cbn; split_and!; done|..].
  all: unfold Verify, ECDSA_verify, EdDSA_verify, bind, emit, loadM, ret;
    cbn [mem clock trace fst snd Reuse Base_Reuse].
  all: match goal with
       | |- context [B64Decode ?sg' ?r ?st0] =>
           pose proof (B64Decode_value sg' r st0 Hsg) as HB;
           cbv zeta in HB; cbn [mem clock] in HB;
           destruct HB as (Hc & HO & HF & HR & HV);
           destruct (B64Decode sg' r st0) as [[sl e] st1]
       end;
    cbn [fst snd] in *;
    unfold verify_value, ecdsa_value;
    destruct (B64.DecodeString (load (mem st) sg)) as [out|];
    [destruct HV as (-> & Hl & _)|destruct HV as (-> & _)];
    cbn [fst snd]; rewrite ?Hl, ?(HF hp Hhp Hap);
    split_and!; done.
Qed.

(** [AccessClaimsFromBase64] computes [payload_value] of the bytes of its
    slice at the time of the call. *)
Lemma AccessClaimsFromBase64_value (payload : slice) (r : bool) (st : state) :
  slice_ok (mem st) payload ->
  let res := AccessClaimsFromBase64 payload r st in
  fst res = payload_value (load (mem st) payload) (clock st) /\
  (r = false -> forall s, slice_ok (mem st) s ->
     load (mem (snd res)) s = load (mem st) s).
Proof.
  intros Hp res. subst res.
  unfold AccessClaimsFromBase64, bind, payload_value.
  pose proof (B64Decode_value payload r st Hp) as HB. cbv zeta in HB.
  destruct HB as (Hc & HO & HF & HR & HV).
  destruct (B64Decode payload r st) as [[sl e] st1]. cbn [fst snd] in *.
  destruct (B64.DecodeString (load (mem st) payload)) as [data|].
  - destruct HV as (-> & Hl & _).
    unfold loadM, emit, Valid, now, bind, emit, ret. cbn [mem clock trace].
    rewrite Hl. destruct (json_Unmarshal data) as [c|err]; cbn [fst snd mem];
      rewrite ?Hc; done.
  - destruct HV as (-> & _). done.
Qed.

Lemma SplitThreeParts_bounds (jwt : bytes) (p1 p2 : Z) :
  SplitThreeParts jwt = (p1, p2, None) ->
  exists n1 n2 : nat,
    p1 = Z.of_nat n1 /\ p2 = Z.of_nat n2 /\ n1 < n2 /\ n2 < length jwt /\
    jwt !! n1 = Some "."%byte /\ jwt !! n2 = Some "."%byte /\
    (forall j, j < n1 -> jwt !! j <> Some "."%byte) /\
    (forall j, n2 < j -> jwt !! j <> Some "."%byte).
Proof.
  intros Hs. pose proof (SplitThreeParts_spec jwt) as H.
  destruct (count_byte "."%byte jwt) as [|[|k]]; [congruence|congruence|].
  destruct H as (n1 & n2 & H & Hlt & H1 & H2 & Hb & Ha).
  rewrite Hs in H. injection H as -> ->.
  exists n1, n2. split_and!; try done. by apply lookup_lt_Some in H2.
Qed.

Lemma claims_spec (v : Verifier) (tok : slice) (st : state) :
  slice_ok (mem st) tok ->
  fst (claims v tok st) = claims_value v (load (mem st) tok) (clock st) /\
  (Reuse v = false -> forall s, slice_ok (mem st) s ->
     load (mem (snd (claims v tok st))) s = load (mem st) s).
Proof.
  intros Htok. rewrite claims_unfold. unfold claims_value.
  pose proof (load_ok_length (mem st) tok Htok) as Hlen.
  destruct (SplitThreeParts (load (mem st) tok)) as [[p1 p2] [e|]] eqn:ES; [done|].
  destruct (SplitThreeParts_bounds _ _ _ ES) as (n1 & n2 & -> & -> & H12 & H2 & _).
  rewrite !Nat2Z.id. cbv zeta.
  set (hp := reslice tok 0 n2). set (sg := reslice tok (n2 + 1) (len tok)).
  set (pl := reslice tok (n1 + 1) n2).
  assert (Hhp : slice_ok (mem st) hp) by (apply slice_ok_reslice; [done|lia|lia]).
  assert (Hsg : slice_ok (mem st) sg) by (apply slice_ok_reslice; [done|lia|lia]).
  assert (Hpl : slice_ok (mem st) pl) by (apply slice_ok_reslice; [done|lia|lia]).
  assert (Hap1 : apart hp sg) by (right; left; simpl; lia).
  assert (Hap2 : apart pl sg) by (right; left; simpl; lia).
  pose proof (Verify_value v hp sg st Hhp Hsg Hap1) as HV. cbv zeta in HV.
  destruct HV as (Hres & Hc & HO & HF & HR).
  destruct (Verify v hp sg st) as [ok st1]. cbn [fst snd] in *.
  rewrite <- (load_prefix (mem st) tok n2 ltac:(lia)).
  rewrite <- (load_suffix (mem st) tok (n2 + 1)).
  rewrite <- (load_reslice (mem st) tok (n1 + 1) n2 ltac:(lia)).
  fold hp sg pl. rewrite <- Hres.
  destruct ok; cbn [negb]; [|split; [done|by apply HR]].
  pose proof (AccessClaimsFromBase64_value pl (Reuse v) st1 (HO _ Hpl)) as HA.
  cbv zeta in HA. destruct HA as (HA1 & HA2).
  rewrite (HF pl Hpl Hap2), Hc in HA1.
  destruct (AccessClaimsFromBase64 pl (Reuse v) st1) as [[ac err] st2].
  cbn [fst snd] in *. rewrite <- HA1. split.
  - by destruct err.
  - intros Hr s Hs.
    assert (load (mem st2) s = load (mem st) s) as Heq
      by (rewrite (HA2 Hr s (HO _ Hs)); by apply HR).
    by destruct err.
Qed.

(** The result of [claims] is a function of the bytes the token slice
    shows, of the verifier's key and of the clock: it is [claims_value] of
    them, whatever else the store holds and whatever the [reuse] flag. *)
Theorem claims_refines_claims_value (v : Verifier) (tok : slice) (st : state) :
  slice_ok (mem st) tok ->
  fst (claims v tok st) = claims_value v (load (mem st) tok) (clock st).
Proof. intros H. by apply claims_spec. Qed.

Lemma verify_value_set_reuse (r : bool) (v : Verifier) (hp sg : bytes) :
  verify_value (set_reuse r v) hp sg = verify_value v hp sg.
Proof. destruct v as [[t|t|t]|x|x|x|x]; reflexivity. Qed.

Lemma claims_value_set_reuse (r : bool) (v : Verifier) (jwt : bytes) (t : Z) :
  claims_value (set_reuse r v) jwt t = claims_value v jwt t.
Proof.
  unfold claims_value.
  destruct (SplitThreeParts jwt) as [[p1 p2] [e|]]; [done|].
  cbv zeta. by rewrite verify_value_set_reuse.
Qed.

(** The [reuse] flag does not change what [claims] returns: the same
    verifier with the flag on and with the flag off, run on the same token
    in the same state, return the same claims and the same error. *)
Theorem claims_reuse_independent (v : Verifier) (tok : slice) (st : state) :
  slice_ok (mem st) tok ->
  fst (claims (set_reuse true v) tok st) = fst (claims (set_reuse false v) tok st).
Proof.
  intros H.
  rewrite (proj1 (claims_spec (set_reuse true v) tok st H)).
  rewrite (proj1 (claims_spec (set_reuse false v) tok st H)).
  by rewrite !claims_value_set_reuse.
Qed.

Lemma Reuse_set_reuse (r : bool) (v : Verifier) : Reuse (set_reuse r v) = r.
Proof. destruct v as [[t|t|t]|x|x|x|x]; reflexivity. Qed.

(** With [reuse] off, [claims] writes to no buffer of the store it was
    given: every slice shows after the call the bytes it showed before. *)
Theorem claims_without_reuse_keeps_store (v : Verifier) (tok s : slice) (st : state) :
  Reuse v = false ->
  slice_ok (mem st) tok -> slice_ok (mem st) s ->
  load (mem (snd (claims v tok st))) s = load (mem st) s.
Proof.
  intros Hr Htok Hs. by apply (proj2 (claims_spec v tok st Htok)).
Qed.

Lemma apart_reslice (s d : slice) (lo hi : nat) :
  apart s d -> lo <= hi -> hi <= len d -> apart s (reslice d lo hi).
Proof.
  unfold apart, reslice. simpl. intros [H|[H|H]] H1 H2;
    [by left|right; left; lia|right; right; lia].
Qed.

Lemma AccessClaimsFromBase64_frame (payload s : slice) (r : bool) (st : state) :
  slice_ok (mem st) payload -> slice_ok (mem st) s -> apart s payload ->
  load (mem (snd (AccessClaimsFromBase64 payload r st))) s = load (mem st) s.
Proof.
  intros Hp Hs Hap. unfold AccessClaimsFromBase64, bind.
  pose proof (B64Decode_value payload r st Hp) as HB. cbv zeta in HB.
  destruct HB as (_ & _ & HF & _ & _). specialize (HF s Hs Hap).
  destruct (B64Decode payload r st) as [[sl e] st1]. cbn [fst snd] in *.
  destruct e; [done|].
  unfold loadM, emit, Valid, now, bind, emit, ret. cbn [mem clock trace].
  by destruct (json_Unmarshal _).
Qed.

(** In both modes [claims] writes nowhere but inside the token it was
    given: a slice that shares no byte with the token shows after the call
    the bytes it showed before. *)
Theorem claims_writes_inside_token (v : Verifier) (tok s : slice) (st : state) :
  slice_ok (mem st) tok -> slice_ok (mem st) s -> apart s tok ->
  load (mem (snd (claims v tok st))) s = load (mem st) s.
Proof.
  intros Htok Hs Hap. rewrite claims_unfold.
  pose proof (load_ok_length (mem st) tok Htok) as Hlen.
  destruct (SplitThreeParts (load (mem st) tok)) as [[p1 p2] [e|]] eqn:ES; [done|].
  destruct (SplitThreeParts_bounds _ _ _ ES) as (n1 & n2 & -> & -> & H12 & H2 & _).
  rewrite !Nat2Z.id. cbv zeta.
  set (hp := reslice tok 0 n2). set (sg := reslice tok (n2 + 1) (len tok)).
  set (pl := reslice tok (n1 + 1) n2).
  assert (Hhp : slice_ok (mem st) hp) by (apply slice_ok_reslice; [done|lia|lia]).
  assert (Hsg : slice_ok (mem st) sg) by (apply slice_ok_reslice; [done|lia|lia]).
  assert (Hpl : slice_ok (mem st) pl) by (apply slice_ok_reslice; [done|lia|lia]).
  assert (Hap1 : apart hp sg) by (right; left; simpl; lia).
  pose proof (Verify_value v hp sg st Hhp Hsg Hap1) as HV. cbv zeta in HV.
  destruct HV as (_ & _ & HO & HF & _).
  specialize (HF s Hs (apart_reslice s tok (n2 + 1) (len tok) Hap ltac:(lia) ltac:(lia))).
  destruct (Verify v hp sg st) as [ok st1]. cbn [fst snd] in *.
  destruct ok; cbn [negb]; [|done].
  pose proof (AccessClaimsFromBase64_frame pl s (Reuse v) st1 (HO _ Hpl) (HO _ Hs)
                (apart_reslice s tok (n1 + 1) n2 Hap ltac:(lia) ltac:(lia))) as HA.
  destruct (AccessClaimsFromBase64 pl (Reuse v) st1) as [[ac err] st2].
  cbn [fst snd] in *. rewrite <- HF, <- HA. by destruct err.
Qed.

End PipelineFacts.

(** ** Base64: decoding what was encoded *)

Lemma lor_shiftl_low (x d k : N) :
  (d < 2 ^ k)%N -> N.lor (N.shiftl x k) d = (x * 2 ^ k + d)%N.
Proof.
  intros Hd.
  assert (H0 : N.land (N.shiftl x k) d = 0%N).
  { apply N.bits_inj. intros i. rewrite N.land_spec, N.bits_0.
    destruct (N.ltb_spec i k) as [Hi|Hi].
    - rewrite N.shiftl_spec_low; auto.
    - rewrite <- (N.mod_small d (2 ^ k)) by auto.
      rewrite N.mod_pow2_bits_high by auto. apply andb_false_r. }
  rewrite <- N.lxor_lor, <- N.add_nocarry_lxor by auto.
  rewrite N.shiftl_mul_pow2. reflexivity.
Qed.

Lemma sel_div (w sh : N) : B64.sel w sh = ((w / 2 ^ sh) mod 64)%N.
Proof.
  unfold B64.sel. rewrite N.shiftr_div_pow2.
  change 63%N with (N.ones 6). by rewrite N.land_ones.
Qed.

Lemma oct_div (w sh : N) : B64.oct w sh = byte_of_N ((w / 2 ^ sh) mod 256)%N.
Proof.
  unfold B64.oct. rewrite N.shiftr_div_pow2.
  change 255%N with (N.ones 8). by rewrite N.land_ones.
Qed.

Lemma word3_sum (a b c : byte) :
  B64.word3 a b c = (Byte.to_N a * 65536 + Byte.to_N b * 256 + Byte.to_N c)%N.
Proof.
  pose proof (Byte.to_N_bounded a). pose proof (Byte.to_N_bounded b).
  pose proof (Byte.to_N_bounded c).
  unfold B64.word3.
  rewrite (lor_shiftl_low (Byte.to_N b) (Byte.to_N c) 8) by (simpl; lia).
  rewrite lor_shiftl_low by (simpl; lia). simpl (2 ^ _)%N. lia.
Qed.

Lemma word4_sum (a b c d : N) :
  (b < 64)%N -> (c < 64)%N -> (d < 64)%N ->
  B64.word4 a b c d = (a * 262144 + b * 4096 + c * 64 + d)%N.
Proof.
  intros Hb Hc Hd. unfold B64.word4.
  rewrite (lor_shiftl_low c d 6) by (simpl; lia).
  rewrite (lor_shiftl_low b _ 12) by (simpl; lia).
  rewrite lor_shiftl_low by (simpl; lia). simpl (2 ^ _)%N. lia.
Qed.

Lemma byte_of_to_N (a : byte) : byte_of_N (Byte.to_N a) = a.
Proof. unfold byte_of_N. by rewrite Byte.of_to_N. Qed.

Lemma to_N_byte_of_N (n : N) : (n < 256)%N -> Byte.to_N (byte_of_N n) = n.
Proof.
  intros H. unfold byte_of_N.
  destruct (Byte.of_N n) as [b|] eqn:E.
  - by apply Byte.to_of_N.
  - apply Byte.of_N_None_iff in E. lia.
Qed.

(** The alphabet is read back. *)
Lemma sextet_enc6 (n : N) : (n < 64)%N -> B64.sextet (B64.enc6 n) = Some n.
Proof.
  intros H. rewrite <- (N2Nat.id n).
  assert (Hk : N.to_nat n < 64) by lia.
  generalize dependent (N.to_nat n). clear. intros k Hk.
  do 64 (destruct k as [|k]; [reflexivity|]). lia.
Qed.

Lemma quantum_bytes (na nb nc : N) :
  (na < 256)%N -> (nb < 256)%N -> (nc < 256)%N ->
  let w := (na * 65536 + nb * 256 + nc)%N in
  let w' := ((w / 262144) mod 64 * 262144 + (w / 4096) mod 64 * 4096
             + (w / 64) mod 64 * 64 + w mod 64)%N in
  ((w' / 65536) mod 256 = na /\ (w' / 256) mod 256 = nb /\ w' mod 256 = nc)%N.
Proof.
  intros Ha Hb Hc w w'. subst w' w.
  split; [|split]; zify; Z.to_euclidean_division_equations; lia.
Qed.

Lemma sel_lt (w sh : N) : (B64.sel w sh < 64)%N.
Proof. rewrite sel_div. apply N.mod_upper_bound. lia. Qed.

(** The three bytes are the octets of the word made of their sextets. *)
Lemma octets_of_sextets (a b c : byte) :
  let w := B64.word3 a b c in
  let w' := B64.word4 (B64.sel w 18) (B64.sel w 12) (B64.sel w 6) (B64.sel w 0) in
  B64.oct w' 16 = a /\ B64.oct w' 8 = b /\ B64.oct w' 0 = c.
Proof.
  intros w w'. subst w'.
  rewrite word4_sum by apply sel_lt.
  rewrite !oct_div, !sel_div. subst w. rewrite word3_sum.
  pose proof (Byte.to_N_bounded a) as Ba. pose proof (Byte.to_N_bounded b) as Bb.
  pose proof (Byte.to_N_bounded c) as Bc.
  destruct (quantum_bytes (Byte.to_N a) (Byte.to_N b) (Byte.to_N c))
    as (H1 & H2 & H3); [lia..|].
  cbv zeta in H1, H2, H3.
  change (2 ^ 18)%N with 262144%N. change (2 ^ 12)%N with 4096%N.
  change (2 ^ 6)%N with 64%N. change (2 ^ 16)%N with 65536%N.
  change (2 ^ 8)%N with 256%N. change (2 ^ 0)%N with 1%N.
  rewrite !N.div_1_r. rewrite H1, H2, H3, !byte_of_to_N. done.
Qed.

Lemma dec4_enc (a b c : byte) :
  let w := B64.word3 a b c in
  B64.dec4 (B64.enc6 (B64.sel w 18)) (B64.enc6 (B64.sel w 12))
           (B64.enc6 (B64.sel w 6)) (B64.enc6 (B64.sel w 0)) = Some (a, b, c).
Proof.
  intros w. unfold B64.dec4. rewrite !sextet_enc6 by apply sel_lt.
  destruct (octets_of_sextets a b c) as (H1 & H2 & H3).
  cbv zeta in *. subst w. by rewrite H1, H2, H3.
Qed.

Lemma sel_0_two (a b : byte) : B64.sel (B64.word3 a b x00) 0 = 0%N.
Proof.
  rewrite sel_div, word3_sum. change (Byte.to_N x00) with 0%N.
  change (2 ^ 0)%N with 1%N. rewrite N.div_1_r.
  zify; Z.to_euclidean_division_equations; lia.
Qed.

Lemma sel_6_one (a : byte) : B64.sel (B64.word3 a x00 x00) 6 = 0%N.
Proof.
  rewrite sel_div, word3_sum. change (Byte.to_N x00) with 0%N.
  change (2 ^ 6)%N with 64%N.
  zify; Z.to_euclidean_division_equations; lia.
Qed.

Lemma dec3_enc (a b : byte) :
  let w := B64.word3 a b x00 in
  B64.dec3 (B64.enc6 (B64.sel w 18)) (B64.enc6 (B64.sel w 12))
           (B64.enc6 (B64.sel w 6)) = Some (a, b).
Proof.
  intros w. unfold B64.dec3. rewrite !sextet_enc6 by apply sel_lt.
  destruct (octets_of_sextets a b x00) as (H1 & H2 & _).
  cbv zeta in *. subst w.
  rewrite sel_0_two in H1, H2. by rewrite H1, H2.
Qed.

Lemma dec2_enc (a : byte) :
  let w := B64.word3 a x00 x00 in
  B64.dec2 (B64.enc6 (B64.sel w 18)) (B64.enc6 (B64.sel w 12)) = Some a.
Proof.
  intros w. unfold B64.dec2. rewrite !sextet_enc6 by apply sel_lt.
  destruct (octets_of_sextets a x00 x00) as (H1 & _).
  cbv zeta in *. subst w.
  rewrite sel_0_two, sel_6_one in H1. by rewrite H1.
Qed.

(** [DecodeString] undoes [Encode], for every byte string. *)
Lemma DecodeString_Encode (l : bytes) : B64.DecodeString (B64.Encode l) = Some l.
Proof.
  induction l as [l IH] using (induction_ltof1 _ (@length byte)).
  unfold ltof in IH.
  destruct l as [|a [|b [|c rest]]].
  - reflexivity.
  - cbn [B64.Encode B64.DecodeString]. by rewrite dec2_enc.
  - cbn [B64.Encode B64.DecodeString]. by rewrite dec3_enc.
  - cbn [B64.Encode]. cbv zeta. cbn [B64.DecodeString].
    rewrite dec4_enc. cbn [mbind option_bind].
    rewrite IH by (simpl; lia). done.
Qed.

(** [B64Decode], in either mode, gives back the bytes whose [Encode] text
    the input slice shows. *)
Theorem B64Decode_of_Encode (data : bytes) (b64 : slice) (r : bool) (st : state) :
  slice_ok (mem st) b64 ->
  load (mem st) b64 = B64.Encode data ->
  snd (fst (B64Decode b64 r st)) = None /\
  load (mem (snd (B64Decode b64 r st))) (fst (fst (B64Decode b64 r st))) = data.
Proof.
  intros Hok Hl.
  pose proof (B64Decode_value b64 r st Hok) as H. cbv zeta in H.
  destruct H as (_ & _ & _ & _ & H).
  rewrite Hl, DecodeString_Encode in H. tauto.
Qed.


(** ** The text of a signature *)

Lemma enc6_not_dot (n : N) : B64.enc6 n <> "."%byte.
Proof.
  intros H. apply (f_equal Byte.to_N) in H. unfold B64.enc6 in H.
  change (Byte.to_N "."%byte) with 46%N in H.
  destruct (N.ltb_spec n 26); [rewrite to_N_byte_of_N in H by lia; lia|].
  destruct (N.ltb_spec n 52); [rewrite to_N_byte_of_N in H by lia; lia|].
  destruct (N.ltb_spec n 62); [rewrite to_N_byte_of_N in H by lia; lia|].
  destruct (n =? 62)%N; vm_compute in H; discriminate.
Qed.

Lemma count_byte_Encode (l : bytes) : count_byte "."%byte (B64.Encode l) = 0.
Proof.
  induction l as [l IH] using (induction_ltof1 _ (@length byte)).
  unfold ltof in IH.
  destruct l as [|a [|b [|c rest]]]; [reflexivity|..];
    cbn [B64.Encode]; cbv zeta; rewrite !count_byte_cons;
    repeat (destruct (decide (_ = "."%byte)) as [E|_];
            [by apply enc6_not_dot in E|]);
    [reflexivity|reflexivity|].
  rewrite IH by (simpl; lia). reflexivity.
Qed.

(** ** Splitting and joining *)

Lemma count_byte_app (c : byte) (a b : bytes) :
  count_byte c (a ++ b) = count_byte c a + count_byte c b.
Proof. unfold count_byte. by rewrite filter_app, length_app. Qed.

Lemma count_byte_0_lookup (c : byte) (l : bytes) :
  count_byte c l = 0 <-> forall j, l !! j <> Some c.
Proof.
  pose proof (index_spec c l 0 ltac:(lia)) as H. split.
  - intros E. rewrite E in H. tauto.
  - intros Hno. destruct (count_byte c l) as [|k]; [done|].
    destruct H as (n1 & _ & _ & _ & _ & _ & H1 & _). by apply Hno in H1.
Qed.

(** The three parts, put back with their two dots, are the token; the
    first and the third hold no dot (the second may). *)
Theorem SplitThreeParts_parts (jwt : bytes) (p1 p2 : Z) :
  SplitThreeParts jwt = (p1, p2, None) ->
  let n1 := Z.to_nat p1 in
  let n2 := Z.to_nat p2 in
  let header := take n1 jwt in
  let payload := take (n2 - (n1 + 1)) (drop (n1 + 1) jwt) in
  let signature := drop (n2 + 1) jwt in
  jwt = header ++ "."%byte :: payload ++ "."%byte :: signature /\
  count_byte "."%byte header = 0 /\
  count_byte "."%byte signature = 0.
Proof.
  intros Hs. destruct (SplitThreeParts_bounds _ _ _ Hs)
    as (n1 & n2 & -> & -> & H12 & Hn2 & L1 & L2 & Hb & Ha).
  rewrite !Nat2Z.id. cbv zeta. split_and!.
  - rewrite <- (take_drop_middle jwt n1 "."%byte L1) at 1. do 2 f_equal.
    assert (L2' : drop (S n1) jwt !! (n2 - (n1 + 1)) = Some "."%byte)
      by (rewrite lookup_drop, <- L2; f_equal; lia).
    rewrite <- (take_drop_middle _ _ _ L2') at 1.
    replace (n1 + 1) with (S n1) by lia. do 2 f_equal.
    rewrite drop_drop. f_equal. lia.
  - apply count_byte_0_lookup. intros j Hj.
    apply lookup_take_Some in Hj as [Hj Hlt]. by apply (Hb j).
  - apply count_byte_0_lookup. intros j Hj.
    rewrite lookup_drop in Hj. apply (Ha (n2 + 1 + j)); [lia|done].
Qed.

(** A text with a dot, a dot, and a text without dots: the split is at the
    first dot of the first text and at the joining dot. *)
Lemma SplitThreeParts_join (hp sg : bytes) :
  1 <= count_byte "."%byte hp -> count_byte "."%byte sg = 0 ->
  exists n1 : nat,
    IndexByte hp "."%byte = Z.of_nat n1 /\ n1 < length hp /\
    SplitThreeParts (hp ++ "."%byte :: sg) = (Z.of_nat n1, Z.of_nat (length hp), None).
Proof.
  intros Hhp Hsg.
  set (jwt := hp ++ "."%byte :: sg).
  assert (Hmid : jwt !! length hp = Some "."%byte) by (by apply list_lookup_middle).
  pose proof (index_spec "."%byte hp 0 ltac:(lia)) as Hi.
  destruct (count_byte "."%byte hp) as [|k] eqn:Ek; [lia|].
  destruct Hi as (n1 & _ & Hidx & _ & _ & _ & Hn1 & _ & Hbef & _).
  assert (Hn1lt : n1 < length hp) by (by apply lookup_lt_Some in Hn1).
  exists n1. split; [unfold IndexByte; lia|]. split; [done|].
  pose proof (SplitThreeParts_spec jwt) as H.
  assert (Hc : count_byte "."%byte jwt = S (S k)).
  { subst jwt. rewrite count_byte_app, count_byte_cons, Ek, Hsg.
    destruct (decide ("."%byte = "."%byte)); [lia|done]. }
  rewrite Hc in H. destruct H as (p1 & p2 & -> & Hlt & L1 & L2 & Hb & Ha).
  assert (p2 = length hp) as ->.
  { destruct (Nat.lt_trichotomy p2 (length hp)) as [Hl|[Heq|Hg]]; [|done|].
    - by apply (Ha (length hp)) in Hmid.
    - exfalso. subst jwt. rewrite lookup_app_r in L2 by lia.
      destruct (p2 - length hp) as [|j] eqn:Ej; [lia|]. simpl in L2.
      by apply (proj1 (count_byte_0_lookup _ _) Hsg j). }
  assert (p1 = n1) as ->; [|done].
  destruct (Nat.lt_trichotomy p1 n1) as [Hl|[Heq|Hg]]; [|done|].
  - exfalso. apply (Hbef p1 Hl). subst jwt.
    rewrite lookup_app_l in L1 by lia. done.
  - exfalso. apply (Hb n1 Hg). subst jwt. by rewrite lookup_app_l by lia.
Qed.

Section SignatureFacts.

Context {P : Primitives}.

(** ** Signatures and signed tokens *)

Lemma Sign_eq (t : Tokenizer) (hp : bytes) :
  Sign t hp = B64.Encode (hmac_Sum (Tokenizer_alg t) (key (Tokenizer_key t)) hp).
Proof.
  destruct t as [v|v|v]; unfold Sign, HS256_Sign, HS384_Sign, HS512_Sign;
    by rewrite sign_eq.
Qed.

(** [Sign] returns the unpadded URL-safe base64 text of the HMAC of the
    bytes it was given, under the tokenizer's key and hash (SHA-256, 384 or
    512): a text that decodes back to the MAC, of [EncodedLen] characters,
    without any dot. *)
Theorem Sign_text (t : Tokenizer) (hp : bytes) :
  let mac := hmac_Sum (Tokenizer_alg t) (key (Tokenizer_key t)) hp in
  Sign t hp = B64.Encode mac /\
  B64.DecodeString (Sign t hp) = Some mac /\
  length (Sign t hp) = B64.EncodedLen (length mac) /\
  count_byte "."%byte (Sign t hp) = 0.
Proof.
  cbv zeta. rewrite Sign_eq. split_and!.
  - done.
  - apply DecodeString_Encode.
  - apply length_Encode.
  - apply count_byte_Encode.
Qed.

Lemma claims_signed (t : Tokenizer) (hp : bytes) (tok : slice) (st : state) :
  slice_ok (mem st) tok ->
  1 <= count_byte "."%byte hp ->
  load (mem st) tok = hp ++ "."%byte :: Sign t hp ->
  fst (claims (VerTok t) tok st) =
  drop_claims_on_error
    (payload_value (drop (Z.to_nat (IndexByte hp "."%byte) + 1) hp) (clock st)).
Proof.
  intros Hok Hdot Hload.
  rewrite (proj1 (claims_spec (VerTok t) tok st Hok)), Hload.
  unfold claims_value.
  assert (Hsg : count_byte "."%byte (Sign t hp) = 0)
    by (rewrite Sign_eq; apply count_byte_Encode).
  destruct (SplitThreeParts_join hp (Sign t hp) Hdot Hsg) as (n1 & -> & Hn1 & ->).
  rewrite !Nat2Z.id. cbv zeta. cbn [verify_value].
  rewrite take_app_length.
  replace (drop (length hp + 1) (hp ++ "."%byte :: Sign t hp)) with (Sign t hp).
  2:{ rewrite drop_app_ge by lia.
      replace (length hp + 1 - length hp) with 1 by lia. done. }
  unfold verify. rewrite bytes_Equal_refl. cbn [negb].
  rewrite drop_app_le by lia.
  rewrite take_app_length'; [done|]. rewrite length_drop. lia.
Qed.

(** A token made of a header and payload [hp], a dot and [Sign(hp)] passes
    the split and the signature check of [claims], whatever the key: what
    [claims] returns is what the payload, the text after the first dot of
    [hp], decodes and validates to. *)
Theorem claims_of_signed_token (t : Tokenizer) (hp : bytes) (tok : slice) (st : state) :
  slice_ok (mem st) tok ->
  1 <= count_byte "."%byte hp ->
  load (mem st) tok = hp ++ "."%byte :: Sign t hp ->
  fst (claims (VerTok t) tok st) =
  drop_claims_on_error
    (payload_value (drop (Z.to_nat (IndexByte hp "."%byte) + 1) hp) (clock st)).
Proof. apply claims_signed. Qed.

(** For an HMAC verifier and a token with its two dots, [claims] returns
    [ErrJWTSignature] exactly when the text after the last dot is not the
    signature [Sign] computes for the text before it. *)
Theorem claims_bad_signature_iff (t : Tokenizer) (tok : slice) (st : state) (p1 p2 : Z) :
  slice_ok (mem st) tok ->
  SplitThreeParts (load (mem st) tok) = (p1, p2, None) ->
  snd (fst (claims (VerTok t) tok st)) = Some ErrJWTSignature <->
  drop (Z.to_nat p2 + 1) (load (mem st) tok)
    <> Sign t (take (Z.to_nat p2) (load (mem st) tok)).
Proof.
  intros Hok Hs.
  rewrite (proj1 (claims_spec (VerTok t) tok st Hok)).
  unfold claims_value. rewrite Hs. cbv zeta. cbn [verify_value].
  pose proof (verify_iff t (take (Z.to_nat p2) (load (mem st) tok))
                (drop (Z.to_nat p2 + 1) (load (mem st) tok))) as Hv.
  destruct (verify t _ _); cbn [negb].
  - split; [|intros Hne; exfalso; apply Hne; by apply Hv].
    unfold payload_value, drop_claims_on_error, Valid_at.
    destruct (B64.DecodeString _) as [data|]; [|done].
    destruct (json_Unmarshal data) as [c|e]; [|done].
    destruct (_ =? _)%Z; done.
  - split; [|done]. intros _ Heq. apply Hv in Heq. done.
Qed.

(** ES256, ES384, ES512 and EdDSA: a signature text that is not valid base64
    is refused, without consulting the key. *)
Theorem asymmetric_rejects_non_base64 (v : Verifier) (hp sg : slice) (st : state) :
  slice_ok (mem st) sg ->
  (forall t, v <> VerTok t) ->
  B64.DecodeString (load (mem st) sg) = None ->
  fst (Verify v hp sg st) = false.
Proof.
  intros Hsg Hv Hbad.
  destruct v as [t|x|x|x|x]; [by destruct (Hv t)|..].
  all: unfold Verify, ECDSA_verify, EdDSA_verify, bind, emit, loadM, ret;
    cbn [mem clock trace fst snd].
  all: match goal with
       | |- context [B64Decode ?sg' ?r ?st0] =>
           pose proof (B64Decode_value sg' r st0 Hsg) as HB;
           cbv zeta in HB; cbn [mem clock] in HB;
           destruct HB as (_ & _ & _ & _ & HV);
           rewrite Hbad in HV; destruct HV as [HV _];
           destruct (B64Decode sg' r st0) as [[sl e] st1]
       end;
    cbn [fst snd] in *; by subst e.
Qed.

(** [claims] returns either the claims and no error, or no claims and one
    of five errors: [ErrThreeParts], [ErrJWTSignature], [ErrNoBase64JWT], a
    [claimError] or the validation error of the jwt library.  It never
    returns both, and never neither. *)
Theorem claims_result_shape (v : Verifier) (tok : slice) (st : state) :
  match fst (claims v tok st) with
  | (Some _, None) => True
  | (None, Some e) =>
      e = ErrThreeParts \/ e = ErrJWTSignature \/ e = ErrNoBase64JWT \/
      (exists msg data, e = ClaimError msg data) \/
      (exists bits, e = ValidationError bits)
  | _ => False
  end.
Proof.
  rewrite claims_unfold.
  destruct (SplitThreeParts (load (mem st) tok)) as [[p1 p2] [e|]] eqn:ES.
  { unfold SplitThreeParts in ES. destruct (_ || _); [|done].
    injection ES as _ _ <-. cbn. by left. }
  cbv zeta. destruct (Verify v _ _ st) as [ok st1].
  destruct ok; cbn [negb]; [|cbn; right; by left].
  unfold AccessClaimsFromBase64, bind.
  destruct (B64Decode _ _ st1) as [[sl [e|]] st2]; [cbn; right; right; by left|].
  unfold loadM, emit, Valid, now, bind, emit, ret. cbn [mem clock trace].
  destruct (json_Unmarshal _) as [c|msg]; cbn [fst snd].
  - unfold Valid_at. destruct (_ =? _)%Z; cbn; [done|].
    right; right; right; right. eauto.
  - cbn. right; right; right; left. eauto.
Qed.

(** [AccessClaimsFromBase64], unlike [claims], returns the decoded claims
    next to the error when the only failure is the validation of the
    dates; on a base64 or JSON failure it returns no claims. *)
Theorem AccessClaimsFromBase64_result_shape (payload : slice) (r : bool) (st : state) :
  match fst (AccessClaimsFromBase64 payload r st) with
  | (Some c, None) => Valid_at (Registered c) (clock st) = None
  | (Some c, Some e) => Valid_at (Registered c) (clock st) = Some e /\
                        exists bits, e = ValidationError bits
  | (None, Some e) => e = ErrNoBase64JWT \/ exists msg data, e = ClaimError msg data
  | (None, None) => False
  end.
Proof.
  unfold AccessClaimsFromBase64, bind.
  pose proof (B64Decode_trace payload r st) as [_ Hc].
  destruct (B64Decode payload r st) as [[sl [e|]] st2]; [unfold ret; cbn [fst snd]; by left|].
  unfold loadM, emit, Valid, now, bind, emit, ret. cbn [mem clock trace snd] in *.
  destruct (json_Unmarshal _) as [c|msg]; cbn [fst snd clock]; [|right; eauto].
  rewrite Hc. destruct (Valid_at (Registered c) (clock st)) as [e|] eqn:EV; cbn iota; [|done].
  split; [done|]. unfold Valid_at in EV. destruct (_ =? _)%Z; [done|].
  injection EV as <-. eauto.
Qed.

End SignatureFacts.

(** ** What [B64Decode] allocates *)

Lemma wr_other (m : store) (d : slice) (j p : nat) (b : byte) :
  p <> ptr d -> wr m d j b !! p = m !! p.
Proof. intros H. unfold wr. by apply list_lookup_alter_ne. Qed.

Lemma decQuanta_store (dst src : slice) (p q : nat) :
  forall (k : nat) (m : store),
    length (fst (decQuanta q k m dst src)) = length m /\
    (p <> ptr dst -> fst (decQuanta q k m dst src) !! p = m !! p).
Proof.
  induction q as [|q IH]; intros k m; [done|].
  cbn [decQuanta].
  destruct (rd m src (4 * k)) as [a|]; [|done].
  destruct (rd m src (4 * k + 1)) as [b|]; [|done].
  destruct (rd m src (4 * k + 2)) as [c|]; [|done].
  destruct (rd m src (4 * k + 3)) as [d|]; [|done].
  destruct (B64.dec4 a b c d) as [[[x y] z]|]; [|done].
  destruct (IH (S k) (wr (wr (wr m dst (3 * k) x) dst (3 * k + 1) y) dst (3 * k + 2) z))
    as [-> IH2].
  rewrite !wr_length. split; [done|].
  intros Hp. rewrite IH2 by done. by rewrite !wr_other.
Qed.

Lemma decTail_store (dst src : slice) (p k : nat) (m : store) :
  length (fst (decTail k m dst src)) = length m /\
  (p <> ptr dst -> fst (decTail k m dst src) !! p = m !! p).
Proof.
  unfold decTail.
  destruct (len src - 4 * k) as [|[|[|r]]]; try done.
  - destruct (rd m src (4 * k)) as [a|]; [|done].
    destruct (rd m src (4 * k + 1)) as [b|]; [|done].
    destruct (B64.dec2 a b) as [x|]; [|done]. cbn [fst].
    rewrite wr_length. split; [done|]. intros Hp. by rewrite wr_other.
  - destruct (rd m src (4 * k)) as [a|]; [|done].
    destruct (rd m src (4 * k + 1)) as [b|]; [|done].
    destruct (rd m src (4 * k + 2)) as [c|]; [|done].
    destruct (B64.dec3 a b c) as [[x y]|]; [|done]. cbn [fst].
    rewrite !wr_length. split; [done|]. intros Hp. by rewrite !wr_other.
Qed.

(** [Decode] adds no buffer and writes in no other buffer than the one of
    [dst]. *)
Lemma Decode_store (m : store) (dst src : slice) (p : nat) :
  length (fst (Decode m dst src)) = length m /\
  (p <> ptr dst -> fst (Decode m dst src) !! p = m !! p).
Proof.
  unfold Decode.
  pose proof (decQuanta_store dst src p (len src / 4) 0 m) as [HQ1 HQ2].
  destruct (decQuanta (len src / 4) 0 m dst src) as [m1 ok]. cbn [fst] in *.
  destruct ok; [|done].
  pose proof (decTail_store dst src p (len src / 4) m1) as [HT1 HT2].
  destruct (decTail (len src / 4) m1 dst src) as [m2 [n|]]; cbn [fst] in *;
    (split; [congruence|]); intros Hp; rewrite HT2, HQ2; done.
Qed.

(** With [reuse] the decoder allocates nothing: the store has the buffers it
    had, and the decoded slice starts where the input starts, in the same
    buffer.  Without [reuse] exactly one buffer is added, the decoded slice
    is the start of it, and every buffer that was there is left as it was. *)
Theorem B64Decode_allocation (b64 : slice) (st : state) :
  let reused := B64Decode b64 true st in
  let fresh := B64Decode b64 false st in
  length (mem (snd reused)) = length (mem st) /\
  (snd (fst reused) = None ->
     ptr (fst (fst reused)) = ptr b64 /\ off (fst (fst reused)) = off b64) /\
  length (mem (snd fresh)) = S (length (mem st)) /\
  (snd (fst fresh) = None ->
     ptr (fst (fst fresh)) = length (mem st) /\ off (fst (fst fresh)) = 0) /\
  (forall p, p < length (mem st) -> mem (snd fresh) !! p = mem st !! p).
Proof.
  cbv zeta. unfold B64Decode, bind, emit, with_mem, make. cbn [mem clock trace negb].
  pose proof (fun p => Decode_store (mem st) b64 b64 p) as HR.
  destruct (Decode (mem st) b64 b64) as [m1 [n e]]. cbn [fst] in HR.
  set (m0 := mem st ++ [replicate (B64.DecodedLen (len b64)) x00]).
  set (out := Slice (length (mem st)) 0 (B64.DecodedLen (len b64))).
  pose proof (fun p => Decode_store m0 out b64 p) as HF.
  destruct (Decode m0 out b64) as [m2 [n' e']]. cbn [fst] in HF.
  assert (Hm0 : length m0 = S (length (mem st)))
    by (subst m0; rewrite length_app; simpl; lia).
  split_and!.
  - destruct e; cbn [fst snd mem]; apply (HR 0).
  - destruct e; cbn [fst snd]; [done|]. intros _. simpl. split; [done|lia].
  - destruct e'; cbn [fst snd mem]; rewrite <- Hm0; apply (HF 0).
  - destruct e'; cbn [fst snd]; [done|]. intros _. simpl. done.
  - intros p Hp.
    destruct e'; cbn [fst snd mem];
      (rewrite (proj2 (HF p)) by (simpl; lia); subst m0; by apply lookup_app_l).
Qed.

Section FactoryFacts.

Context {P : Primitives}.

(** ** The factory *)

Lemma NewHS256_shape (keyTxt : string) (r : bool) :
  (exists v, NewHS256 keyTxt r = (Some v, None) /\ Base_Reuse (bk_base (hs256 v)) = r) \/
  (exists e, NewHS256 keyTxt r = (None, Some e)).
Proof.
  unfold NewHS256. destruct (DecodeHexOrB64 keyTxt 32) as [k [e|]]; [right|left]; eauto.
Qed.

Lemma NewHS384_shape (keyTxt : string) (r : bool) :
  (exists v, NewHS384 keyTxt r = (Some v, None) /\ Base_Reuse (bk_base (hs384 v)) = r) \/
  (exists e, NewHS384 keyTxt r = (None, Some e)).
Proof.
  unfold NewHS384. destruct (DecodeHexOrB64 keyTxt 48) as [k [e|]]; [right|left]; eauto.
Qed.

Lemma NewHS512_shape (keyTxt : string) (r : bool) :
  (exists v, NewHS512 keyTxt r = (Some v, None) /\ Base_Reuse (bk_base (hs512 v)) = r) \/
  (exists e, NewHS512 keyTxt r = (None, Some e)).
Proof.
  unfold NewHS512. destruct (DecodeHexOrB64 keyTxt 64) as [k [e|]]; [right|left]; eauto.
Qed.

Lemma NewES256_shape (keyTxt : string) (r : bool) :
  (exists v, NewES256 keyTxt r = (Some v, None) /\ Base_Reuse (ec_base (es256 v)) = r) \/
  (exists e, NewES256 keyTxt r = (None, Some e)).
Proof.
  unfold NewES256. destruct (DecodeHexOrB64 keyTxt 91) as [k [e|]]; [right; eauto|].
  destruct (x509_ParsePKIXPublicKey k) as [[[ec|ed|]|] [e|]];
    first [by right; eauto | by left; eauto].
Qed.

Lemma NewES384_shape (keyTxt : string) (r : bool) :
  (exists v, NewES384 keyTxt r = (Some v, None) /\ Base_Reuse (ec_base (es384 v)) = r) \/
  (exists e, NewES384 keyTxt r = (None, Some e)).
Proof.
  unfold NewES384. destruct (DecodeHexOrB64 keyTxt 120) as [k [e|]]; [right; eauto|].
  destruct (x509_ParsePKIXPublicKey k) as [[[ec|ed|]|] [e|]];
    first [by right; eauto | by left; eauto].
Qed.

Lemma NewES512_shape (keyTxt : string) (r : bool) :
  (exists v, NewES512 keyTxt r = (Some v, None) /\ Base_Reuse (ec_base (es512 v)) = r) \/
  (exists e, NewES512 keyTxt r = (None, Some e)).
Proof.
  unfold NewES512. destruct (DecodeHexOrB64 keyTxt 158) as [k [e|]]; [right; eauto|].
  destruct (x509_ParsePKIXPublicKey k) as [[[ec|ed|]|] [e|]];
    first [by right; eauto | by left; eauto].
Qed.

Lemma NewEdDSA_shape (keyTxt : string) (r : bool) :
  (exists v, NewEdDSA keyTxt r = (Some v, None) /\ Base_Reuse (bk_base (eddsa v)) = r) \/
  (exists e, NewEdDSA keyTxt r = (None, Some e)).
Proof.
  unfold NewEdDSA. destruct (DecodeHexOrB64 keyTxt 44) as [k [e|]]; [right; eauto|].
  destruct (x509_ParsePKIXPublicKey k) as [[[ec|ed|]|] [e|]];
    first [by right; eauto | by left; eauto].
Qed.

Lemma NewHMAC_shape (keyTxt : string) (r : bool) :
  (exists t, NewHMAC keyTxt r = (Val t, None) /\ Reuse (VerTok t) = r) \/
  (exists e, NewHMAC keyTxt r = (Nil, Some e)).
Proof.
  unfold NewHMAC. destruct (ContainsRune keyTxt colon); [right; eauto|].
  destruct (NewHS256_shape keyTxt r) as [(v & -> & Hv)|(e & ->)]; [left; eauto|].
  destruct (NewHS384_shape keyTxt r) as [(v & -> & Hv)|(e' & ->)]; [left; eauto|].
  destruct (NewHS512_shape keyTxt r) as [(v & -> & Hv)|(e'' & ->)]; [left; eauto|].
  right; eauto.
Qed.

(** [NewVerifier] returns a verifier exactly when it returns no error, and
    the verifier it returns carries the [reuse] flag it was given.  With an
    error, the interface value is the nil interface or, when a constructor
    named by the descriptor failed, an interface holding a nil pointer. *)
Theorem NewVerifier_verifier_or_error (algoKey : string) (reuse : bool) :
  exists r, NewVerifier algoKey reuse = Returns r /\
    match r with
    | (Val v, None) => Reuse v = reuse
    | (Nil, Some _) | (NilPtr _, Some _) => True
    | _ => False
    end.
Proof.
  assert (HH : forall k, match HMAC_as_Verifier (NewHMAC k reuse) with
                         | (Val v, None) => Reuse v = reuse
                         | (Nil, Some _) | (NilPtr _, Some _) => True
                         | _ => False
                         end).
  { intros k. destruct (NewHMAC_shape k reuse) as [(t & -> & Ht)|(e & ->)]; done. }
  unfold NewVerifier. rewrite SplitN_2.
  destruct (cut algoKey colon) as [[a b]|]; [|eexists; split; [done|apply HH]].
  cbv zeta.
  repeat match goal with
         | |- context [if ?c then _ else _] => destruct c
         end;
    (eexists; split; [reflexivity|]); try apply HH; try done; unfold as_Verifier.
  - destruct (NewHS256_shape b reuse) as [(v & -> & Hv)|(e & ->)]; done.
  - destruct (NewHS384_shape b reuse) as [(v & -> & Hv)|(e & ->)]; done.
  - destruct (NewHS512_shape b reuse) as [(v & -> & Hv)|(e & ->)]; done.
  - destruct (NewES256_shape b reuse) as [(v & -> & Hv)|(e & ->)]; done.
  - destruct (NewES384_shape b reuse) as [(v & -> & Hv)|(e & ->)]; done.
  - destruct (NewES512_shape b reuse) as [(v & -> & Hv)|(e & ->)]; done.
  - destruct (NewEdDSA_shape b reuse) as [(v & -> & Hv)|(e & ->)]; done.
Qed.

Lemma SplitN_prefix (prefix keyTxt : string) :
  ContainsRune prefix colon = false ->
  SplitN (prefix +:+ ":" +:+ keyTxt) colon 2 = [prefix; keyTxt].
Proof.
  intros Hp. rewrite SplitN_2. change (":" +:+ keyTxt)%string with (String colon keyTxt).
  by rewrite (cut_app prefix keyTxt Hp).
Qed.

(** When the descriptor names HS256, HS384, HS512, ES256, ES384, ES512 or
    EdDSA and the constructor fails, the [Verifier] returned with the error
    is not the nil interface: it holds the nil pointer of the constructor's
    type. *)
Theorem NewVerifier_nil_pointer (prefix keyTxt : string) (reuse : bool)
    (v : iface Verifier) (e : error) :
  ContainsRune prefix colon = false ->
  In (ToUpper prefix) ["HS256"; "HS384"; "HS512"; "ES256"; "ES384"; "ES512"; "EDDSA"]%string ->
  NewVerifier (prefix +:+ ":" +:+ keyTxt) reuse = Returns (v, Some e) ->
  exists dyn, v = NilPtr dyn.
Proof.
  intros Hp Hin. unfold NewVerifier. rewrite (SplitN_prefix _ _ Hp). cbv zeta.
  simpl in Hin. unfold as_Verifier.
  destruct Hin as [H|[H|[H|[H|[H|[H|[H|[]]]]]]]]; rewrite <- H; cbn [String.eqb Ascii.eqb Bool.eqb orb].
  - destruct (NewHS256_shape keyTxt reuse) as [(x & -> & _)|(e' & ->)]; [done|].
    intros [= <- <-]. by eexists.
  - destruct (NewHS384_shape keyTxt reuse) as [(x & -> & _)|(e' & ->)]; [done|].
    intros [= <- <-]. by eexists.
  - destruct (NewHS512_shape keyTxt reuse) as [(x & -> & _)|(e' & ->)]; [done|].
    intros [= <- <-]. by eexists.
  - destruct (NewES256_shape keyTxt reuse) as [(x & -> & _)|(e' & ->)]; [done|].
    intros [= <- <-]. by eexists.
  - destruct (NewES384_shape keyTxt reuse) as [(x & -> & _)|(e' & ->)]; [done|].
    intros [= <- <-]. by eexists.
  - destruct (NewES512_shape keyTxt reuse) as [(x & -> & _)|(e' & ->)]; [done|].
    intros [= <- <-]. by eexists.
  - destruct (NewEdDSA_shape keyTxt reuse) as [(x & -> & _)|(e' & ->)]; [done|].
    intros [= <- <-]. by eexists.
Qed.

(** The algorithm name is case insensitive: two prefixes with the same upper
    case, which is a name [NewVerifier] knows, give the same result on the
    same key text. *)
Theorem NewVerifier_case_insensitive (a b keyTxt : string) (reuse : bool) :
  ContainsRune a colon = false -> ContainsRune b colon = false ->
  ToUpper a = ToUpper b ->
  In (ToUpper a) (supported_names ++ unsupported_names) ->
  NewVerifier (a +:+ ":" +:+ keyTxt) reuse = NewVerifier (b +:+ ":" +:+ keyTxt) reuse.
Proof.
  intros Ha Hb Hab Hin. unfold NewVerifier.
  rewrite (SplitN_prefix _ _ Ha), (SplitN_prefix _ _ Hb). cbv zeta.
  rewrite <- Hab. set (algo := ToUpper a) in *.
  repeat match goal with
         | |- context [String.eqb algo ?x] =>
             let E := fresh "E" in
             destruct (String.eqb_spec algo x) as [E|E]; [reflexivity|]
         end.
  exfalso. simpl in Hin. intuition congruence.
Qed.

(** The three ways to give an HMAC key are the same: the bare key text,
    the key after a colon, and the key after [HMAC:] in any case all go to
    [NewHMAC] with the key text, when this text holds no colon. *)
Theorem NewVerifier_HMAC_forms (prefix keyTxt : string) (reuse : bool) :
  ContainsRune prefix colon = false ->
  ContainsRune keyTxt colon = false ->
  ToUpper prefix = EmptyString \/ ToUpper prefix = "HMAC"%string ->
  NewVerifier (prefix +:+ ":" +:+ keyTxt) reuse = NewVerifier keyTxt reuse /\
  NewVerifier keyTxt reuse = Returns (HMAC_as_Verifier (NewHMAC keyTxt reuse)).
Proof.
  intros Hp Hk Hu.
  assert (Hbare : NewVerifier keyTxt reuse = Returns (HMAC_as_Verifier (NewHMAC keyTxt reuse))).
  { unfold NewVerifier. by rewrite SplitN_2, (cut_None _ Hk). }
  split; [|done]. rewrite Hbare.
  unfold NewVerifier. rewrite (SplitN_prefix _ _ Hp). cbv zeta.
  by destruct Hu as [-> | ->].
Qed.

(** After an empty or [HMAC] prefix, a key text that holds a colon is
    refused with [ErrColumnInKey], before any decoding of the key. *)
Theorem NewVerifier_colon_in_key (prefix keyTxt : string) (reuse : bool) :
  ContainsRune prefix colon = false ->
  ContainsRune keyTxt colon = true ->
  ToUpper prefix = EmptyString \/ ToUpper prefix = "HMAC"%string ->
  NewVerifier (prefix +:+ ":" +:+ keyTxt) reuse = Returns (Nil, Some ErrColumnInKey).
Proof.
  intros Hp Hk Hu.
  unfold NewVerifier. rewrite (SplitN_prefix _ _ Hp). cbv zeta.
  assert ((ToUpper prefix =? EmptyString)%string = true \/
          (ToUpper prefix =? "HMAC")%string = true) as Hb
    by (destruct Hu as [-> | ->]; [by left|by right]).
  replace ((ToUpper prefix =? EmptyString)%string || (ToUpper prefix =? "HMAC")%string)
    with true by (symmetry; apply orb_true_iff; exact Hb).
  by rewrite NewHMAC_colon.
Qed.

End FactoryFacts.

Section ClaimsFacts.

Context {P : Primitives}.

(** ** Errors and validity of the payload *)

Lemma issued_bit (rc : RegisteredClaims) (t : Z) :
  Z.testbit (validation_errors rc t) 5 = negb (verifyIat (IssuedAt rc) t false).
Proof.
  unfold validation_errors.
  destruct (verifyExp (ExpiresAt rc) t false),
           (verifyIat (IssuedAt rc) t false),
           (verifyNbf (NotBefore rc) t false); reflexivity.
Qed.

Lemma not_valid_yet_bit (rc : RegisteredClaims) (t : Z) :
  Z.testbit (validation_errors rc t) 7 = negb (verifyNbf (NotBefore rc) t false).
Proof.
  unfold validation_errors.
  destruct (verifyExp (ExpiresAt rc) t false),
           (verifyIat (IssuedAt rc) t false),
           (verifyNbf (NotBefore rc) t false); reflexivity.
Qed.

Lemma Valid_at_None (rc : RegisteredClaims) (t : Z) :
  Valid_at rc t = None <->
  (forall e, ExpiresAt rc = Some e -> (t < e)%Z) /\
  (forall i, IssuedAt rc = Some i -> (i <= t)%Z) /\
  (forall n, NotBefore rc = Some n -> (n <= t)%Z).
Proof.
  unfold Valid_at.
  destruct (validation_errors rc t =? 0)%Z eqn:E.
  - apply Z.eqb_eq, validation_errors_zero in E as (He & Hi & Hn).
    split; [intros _|done].
    unfold verifyExp, verifyIat, verifyNbf in *. split_and!.
    + intros e Hx. rewrite Hx in He. lia.
    + intros i Hx. rewrite Hx in Hi. lia.
    + intros n Hx. rewrite Hx in Hn. lia.
  - split; [done|]. intros (He & Hi & Hn). exfalso.
    apply Z.eqb_neq in E. apply E, validation_errors_zero.
    unfold verifyExp, verifyIat, verifyNbf. split_and!.
    + destruct (ExpiresAt rc) as [e|]; [|done]. specialize (He e eq_refl). lia.
    + destruct (IssuedAt rc) as [i|]; [|done]. specialize (Hi i eq_refl). lia.
    + destruct (NotBefore rc) as [n|]; [|done]. specialize (Hn n eq_refl). lia.
Qed.

(** [AccessClaimsFromBase64] returns claims without an error exactly when
    the payload is base64 of a JSON text that decodes to these claims and
    the clock is inside their window: before [exp], and not before [iat]
    and [nbf], each date counting only if present. *)
Theorem AccessClaimsFromBase64_accepts_iff
    (payload : slice) (r : bool) (st : state) (c : AccessClaims) :
  slice_ok (mem st) payload ->
  fst (AccessClaimsFromBase64 payload r st) = (Some c, None) <->
  exists data,
    B64.DecodeString (load (mem st) payload) = Some data /\
    json_Unmarshal data = inl c /\
    (forall e, ExpiresAt (Registered c) = Some e -> (clock st < e)%Z) /\
    (forall i, IssuedAt (Registered c) = Some i -> (i <= clock st)%Z) /\
    (forall n, NotBefore (Registered c) = Some n -> (n <= clock st)%Z).
Proof.
  intros Hok.
  rewrite (proj1 (AccessClaimsFromBase64_value payload r st Hok)).
  unfold payload_value.
  destruct (B64.DecodeString (load (mem st) payload)) as [data|];
    [|split; [done|by intros (d & ? & _)]].
  destruct (json_Unmarshal data) as [c'|msg] eqn:EJ.
  - split.
    + intros [= -> HV]. apply Valid_at_None in HV as (He & Hi & Hn).
      exists data. split_and!; done.
    + intros (d & [= <-] & HJ & HW). rewrite EJ in HJ. injection HJ as ->.
      f_equal. by apply Valid_at_None.
  - split; [done|]. intros (d & [= <-] & HJ & _). congruence.
Qed.

(** The two decoding errors of [AccessClaimsFromBase64]: [ErrNoBase64JWT]
    exactly when the payload is not valid base64, and a [claimError] exactly
    when it is and the JSON decoder refuses the decoded bytes; the error
    then carries the decoder's message and these bytes. *)
Theorem AccessClaimsFromBase64_decoding_errors (payload : slice) (r : bool) (st : state) :
  slice_ok (mem st) payload ->
  let err := snd (fst (AccessClaimsFromBase64 payload r st)) in
  (err = Some ErrNoBase64JWT <-> B64.DecodeString (load (mem st) payload) = None) /\
  (forall msg data,
     err = Some (ClaimError msg data) <->
     B64.DecodeString (load (mem st) payload) = Some data /\
     json_Unmarshal data = inr msg).
Proof.
  intros Hok. cbv zeta.
  rewrite (proj1 (AccessClaimsFromBase64_value payload r st Hok)).
  unfold payload_value, Valid_at.
  destruct (B64.DecodeString (load (mem st) payload)) as [data|].
  - destruct (json_Unmarshal data) as [c'|msg'] eqn:EJ; cbn [snd].
    + split; [by destruct (_ =? _)%Z|].
      intros msg d. split; [by destruct (_ =? _)%Z|]. intros [[= <-] HJ]. congruence.
    + split; [done|]. intros msg d. split.
      * intros [= <- <-]. done.
      * intros [[= <-] HJ]. congruence.
  - cbn [snd]. split; [done|]. intros msg d. split; [done|]. by intros [? _].
Qed.

(** The claims [newAccessClaims] and [newRefreshClaims] build carry the
    expiry cut down to the second, and no other date: they are valid at the
    instants before that second, and at no other; so they are valid a full
    second before the expiry given, and no longer at this expiry. *)
Theorem new_claims_valid_iff (second now_ expiry : Z)
    (username namespace : string) (groups orgs : list string) :
  (0 < second)%Z ->
  let ac := newAccessClaims second username groups orgs expiry in
  let rc := newRefreshClaims second namespace username expiry in
  (Valid_at (Registered ac) now_ = None <-> (now_ < Truncate expiry second)%Z) /\
  (Valid_at (RefreshRegistered rc) now_ = None <-> (now_ < Truncate expiry second)%Z) /\
  (Truncate expiry second <= expiry < Truncate expiry second + second)%Z /\
  (Truncate expiry second mod second = 0)%Z.
Proof.
  intros Hs. cbv zeta.
  assert (HW : Valid_at (RegisteredClaims_exp (NewNumericDate second expiry)) now_ = None <->
               (now_ < Truncate expiry second)%Z).
  { rewrite Valid_at_None. cbn. split.
    - intros (He & _ & _). by apply He.
    - intros H. split_and!; [by intros e [= <-]|done|done]. }
  split_and!; try exact HW.
  - unfold Truncate. pose proof (Z.mod_pos_bound expiry second Hs). lia.
  - unfold Truncate. pose proof (Z.mod_pos_bound expiry second Hs). lia.
  - unfold Truncate. rewrite Zminus_mod_idemp_r, Z.sub_diag. apply Z.mod_0_l. lia.
Qed.

(** A token signed by [Sign] whose payload is the JSON of claims made by
    [newAccessClaims] is accepted by [claims], which returns these claims,
    exactly as long as the clock is before the expiry cut down to the
    second. *)
Theorem claims_accepts_until_expiry
    (t : Tokenizer) (hp data : bytes) (tok : slice) (st : state)
    (second expiry : Z) (username : string) (groups orgs : list string) :
  slice_ok (mem st) tok ->
  1 <= count_byte "."%byte hp ->
  load (mem st) tok = hp ++ "."%byte :: Sign t hp ->
  B64.DecodeString (drop (Z.to_nat (IndexByte hp "."%byte) + 1) hp) = Some data ->
  json_Unmarshal data = inl (newAccessClaims second username groups orgs expiry) ->
  (0 < second)%Z ->
  fst (claims (VerTok t) tok st) =
    (Some (newAccessClaims second username groups orgs expiry), None) <->
  (clock st < Truncate expiry second)%Z.
Proof.
  intros Hok Hdot Hload HD HJ Hs.
  rewrite (claims_signed t hp tok st Hok Hdot Hload).
  unfold payload_value. rewrite HD, HJ. cbn [drop_claims_on_error].
  pose proof (Valid_at_None (Registered (newAccessClaims second username groups orgs expiry))
                (clock st)) as HV.
  destruct (Valid_at _ (clock st)) as [e|].
  - split; [done|]. intros Hlt. exfalso.
    assert (Some e = None) as Hbad; [|done]. apply HV. cbn.
    split_and!; [by intros e' [= <-]|done|done].
  - split; [|done]. intros _. destruct HV as [HV _].
    destruct (HV eq_refl) as (He & _ & _). by apply He.
Qed.

End ClaimsFacts.

(** ** The further properties, on concrete tokens *)

Ltac whole_ok := eexists; split; [reflexivity | vm_compute; lia].

Lemma claims_refines_claims_value_witness :
  fst (claims (P := toy) (VerTok (toy_tokenizer true)) (whole token_future)
         (store_at token_future 1000)) =
  claims_value (P := toy) (VerTok (toy_tokenizer true)) (bs token_future) 1000.
Proof.
  apply (claims_refines_claims_value (P := toy) (VerTok (toy_tokenizer true))
           (whole token_future) (store_at token_future 1000)).
  whole_ok.
Defined.

Lemma claims_reuse_independent_witness :
  fst (claims (P := toy) (set_reuse true (VerTok (toy_tokenizer false)))
         (whole token_future) (store_at token_future 1000)) =
  fst (claims (P := toy) (set_reuse false (VerTok (toy_tokenizer false)))
         (whole token_future) (store_at token_future 1000)).
Proof.
  apply (claims_reuse_independent (P := toy) (VerTok (toy_tokenizer false))
           (whole token_future) (store_at token_future 1000)).
  whole_ok.
Defined.

Lemma claims_without_reuse_keeps_store_witness :
  load (mem (snd (claims (P := toy) (VerTok (toy_tokenizer false)) (whole token_future)
                    (store_at token_future 1000)))) (whole token_future) =
  bs token_future.
Proof.
  apply (claims_without_reuse_keeps_store (P := toy) (VerTok (toy_tokenizer false))
           (whole token_future) (whole token_future) (store_at token_future 1000)).
  - reflexivity.
  - whole_ok.
  - whole_ok.
Defined.

Lemma claims_writes_inside_token_witness :
  load (mem (snd (claims (P := toy) (VerTok (toy_tokenizer true)) (Slice 0 0 19)
                    (State [bs token_no_exp; bs "other"] 1000 []))))
       (Slice 1 0 5) =
  bs "other".
Proof.
  apply (claims_writes_inside_token (P := toy) (VerTok (toy_tokenizer true))
           (Slice 0 0 19) (Slice 1 0 5) (State [bs token_no_exp; bs "other"] 1000 [])).
  - whole_ok.
  - whole_ok.
  - left. discriminate.
Defined.

Lemma B64Decode_of_Encode_witness :
  snd (fst (B64Decode (whole "Zm9vYmFy") true (store_of "Zm9vYmFy"))) = None /\
  load (mem (snd (B64Decode (whole "Zm9vYmFy") true (store_of "Zm9vYmFy"))))
       (fst (fst (B64Decode (whole "Zm9vYmFy") true (store_of "Zm9vYmFy")))) =
  bs "foobar".
Proof.
  apply (B64Decode_of_Encode (bs "foobar") (whole "Zm9vYmFy") true (store_of "Zm9vYmFy")).
  - whole_ok.
  - reflexivity.
Defined.


Lemma SplitThreeParts_parts_witness :
  bs "aa.bbb.c" = bs "aa" ++ "."%byte :: bs "bbb" ++ "."%byte :: bs "c".
Proof.
  apply (SplitThreeParts_parts (bs "aa.bbb.c") 2 6). reflexivity.
Defined.

Lemma claims_of_signed_token_witness :
  fst (claims (P := toy) (VerTok (toy_tokenizer false)) (whole token_future)
         (store_at token_future 1000)) =
  drop_claims_on_error
    (payload_value (P := toy) (bs "eyJleHAiOjIwMDAwMDAwMDB9") 1000).
Proof.
  apply (claims_of_signed_token (P := toy) (toy_tokenizer false)
           (bs "e30.eyJleHAiOjIwMDAwMDAwMDB9") (whole token_future)
           (store_at token_future 1000)).
  - whole_ok.
  - vm_compute. lia.
  - reflexivity.
Defined.

Lemma claims_bad_signature_iff_witness :
  snd (fst (claims (P := toy) (VerTok (toy_tokenizer false)) (whole "h.p.s")
              (store_of "h.p.s"))) = Some ErrJWTSignature.
Proof.
  apply (claims_bad_signature_iff (P := toy) (toy_tokenizer false) (whole "h.p.s")
           (store_of "h.p.s") 1 3).
  - whole_ok.
  - reflexivity.
  - vm_compute. discriminate.
Defined.

Lemma asymmetric_rejects_non_base64_witness :
  fst (Verify (P := toy)
         (VerEdDSA {| eddsa := {| key := bs "k"; bk_base := {| reuse := true |} |} |})
         (Slice 0 0 3) (Slice 0 4 2) (store_of "h.p.!!")) = false.
Proof.
  apply (asymmetric_rejects_non_base64 (P := toy)).
  - eexists; split; [reflexivity | vm_compute; lia].
  - intros t. discriminate.
  - reflexivity.
Defined.

Lemma B64Decode_allocation_witness :
  length (mem (snd (B64Decode (whole "Zm9vYmFy") true (store_of "Zm9vYmFy")))) = 1 /\
  length (mem (snd (B64Decode (whole "Zm9vYmFy") false (store_of "Zm9vYmFy")))) = 2.
Proof.
  pose proof (B64Decode_allocation (whole "Zm9vYmFy") (store_of "Zm9vYmFy")) as H.
  cbv zeta in H. destruct H as (H1 & _ & H2 & _). split; [exact H1 | exact H2].
Defined.

Lemma NewVerifier_nil_pointer_witness :
  exists dyn, @NilPtr Verifier "*HS256" = NilPtr dyn.
Proof.
  apply (NewVerifier_nil_pointer (P := toy) "hs256" "zz" false
           (NilPtr "*HS256") (ErrKeyEncoding "zz" 32)).
  - reflexivity.
  - vm_compute. tauto.
  - reflexivity.
Defined.

Lemma NewVerifier_case_insensitive_witness :
  NewVerifier (P := toy) ("hs256" +:+ ":" +:+ key_hex_32) false =
  NewVerifier (P := toy) ("Hs256" +:+ ":" +:+ key_hex_32) false.
Proof.
  apply (NewVerifier_case_insensitive (P := toy) "hs256" "Hs256" key_hex_32 false).
  - reflexivity.
  - reflexivity.
  - reflexivity.
  - vm_compute. tauto.
Defined.

Lemma NewVerifier_HMAC_forms_witness :
  NewVerifier (P := toy) ("hmac" +:+ ":" +:+ key_hex_32) true =
  NewVerifier (P := toy) key_hex_32 true.
Proof.
  apply (NewVerifier_HMAC_forms (P := toy) "hmac" key_hex_32 true).
  - reflexivity.
  - reflexivity.
  - right. reflexivity.
Defined.

Lemma NewVerifier_colon_in_key_witness :
  NewVerifier (P := toy) ("HMAC" +:+ ":" +:+ "a:b") true = Returns (Nil, Some ErrColumnInKey).
Proof.
  apply (NewVerifier_colon_in_key (P := toy) "HMAC" "a:b" true).
  - reflexivity.
  - reflexivity.
  - right. reflexivity.
Defined.

Lemma AccessClaimsFromBase64_accepts_iff_witness :
  fst (AccessClaimsFromBase64 (P := toy) (Slice 0 4 24) true (store_at token_future 1000)) =
  (Some (toy_claims (Some 2000000000%Z)), None).
Proof.
  apply (AccessClaimsFromBase64_accepts_iff (P := toy) (Slice 0 4 24) true
           (store_at token_future 1000) (toy_claims (Some 2000000000%Z))).
  - eexists; split; [reflexivity | vm_compute; lia].
  - exists (toy_exp_member ++ bs "2000000000}"). split_and!.
    + reflexivity.
    + reflexivity.
    + intros e [= <-]. reflexivity.
    + intros i [=].
    + intros n [=].
Defined.

Lemma AccessClaimsFromBase64_decoding_errors_witness :
  snd (fst (AccessClaimsFromBase64 (P := toy) (Slice 0 2 1) false (store_of "h.p.s"))) =
  Some ErrNoBase64JWT.
Proof.
  pose proof (AccessClaimsFromBase64_decoding_errors (P := toy) (Slice 0 2 1) false
                (store_of "h.p.s")) as H.
  cbv zeta in H. apply H.
  - eexists; split; [reflexivity | vm_compute; lia].
  - reflexivity.
Defined.

Lemma new_claims_valid_iff_witness :
  Valid_at (Registered (newAccessClaims 1000 "jane" ["g1"%string] ["o1"%string] 7500)) 6999
  = None.
Proof.
  apply (new_claims_valid_iff 1000 6999 7500 "jane" "ns" ["g1"%string] ["o1"%string]).
  - lia.
  - vm_compute. reflexivity.
Defined.

Lemma claims_accepts_until_expiry_witness :
  fst (claims (P := toy) (VerTok (toy_tokenizer false)) (whole token_future)
         (store_at token_future 1000)) =
  (Some (newAccessClaims 1 "jane" ["g1"%string] ["o1"%string] 2000000000), None).
Proof.
  apply (claims_accepts_until_expiry (P := toy) (toy_tokenizer false)
           (bs "e30.eyJleHAiOjIwMDAwMDAwMDB9") (toy_exp_member ++ bs "2000000000}")
           (whole token_future) (store_at token_future 1000)
           1 2000000000 "jane" ["g1"%string] ["o1"%string]).
  - whole_ok.
  - vm_compute. lia.
  - reflexivity.
  - reflexivity.
  - reflexivity.
  - lia.
  - vm_compute. reflexivity.
Defined.
